(** * Manifest, tag, catalog and referrers handlers of the distr OCI registry

    A shallow embedding of [internal/registry/manifest.go] (package
    [registry]) together with the pieces of the Go standard library and of
    go-containerregistry that the handlers call and whose behaviour the
    handlers' results depend on ([crypto/sha256] behind [v1.SHA256],
    [encoding/json] decoding and encoding, [strconv.Atoi], [url.JoinPath],
    [v1.NewHash]).  The collaborators the handlers reach through interfaces
    (manifest store, blob store, authorizer, auditor, transaction runner)
    are code of the repository outside this file set; they are modelled
    from the specification, each marked as such. *)

From stdpp Require Import gmap strings list.
From Stdlib Require Import String Ascii ZArith List Bool Lia.
Import ListNotations.

Open Scope Z_scope.
#[local] Set Warnings "-register-all,-abstract-large-number".


(* ------------------------------------------------------------------ *)
(** ** Bytes and SHA-256 ([crypto/sha256], used by [v1.SHA256]) *)

Module Sha256.

Definition M32 : Z := 4294967295.
Definition add32 (a b : Z) : Z := Z.land (a + b) M32.
Definition rotr (x n : Z) : Z :=
  Z.lor (Z.shiftr x n) (Z.land (Z.shiftl x (32 - n)) M32).
Definition ch (x y z : Z) : Z := Z.lxor (Z.land x y) (Z.land (Z.lxor x M32) z).
Definition maj (x y z : Z) : Z :=
  Z.lxor (Z.lxor (Z.land x y) (Z.land x z)) (Z.land y z).
Definition bsig0 (x : Z) : Z := Z.lxor (Z.lxor (rotr x 2) (rotr x 13)) (rotr x 22).
Definition bsig1 (x : Z) : Z := Z.lxor (Z.lxor (rotr x 6) (rotr x 11)) (rotr x 25).
Definition ssig0 (x : Z) : Z := Z.lxor (Z.lxor (rotr x 7) (rotr x 18)) (Z.shiftr x 3).
Definition ssig1 (x : Z) : Z := Z.lxor (Z.lxor (rotr x 17) (rotr x 19)) (Z.shiftr x 10).

(** The 64 round constants of FIPS 180-4, section 4.2.2, in decimal. *)
Definition K : list Z :=
  [1116352408; 1899447441; 3049323471; 3921009573; 961987163; 1508970993; 2453635748; 2870763221;
   3624381080; 310598401; 607225278; 1426881987; 1925078388; 2162078206; 2614888103; 3248222580;
   3835390401; 4022224774; 264347078; 604807628; 770255983; 1249150122; 1555081692; 1996064986;
   2554220882; 2821834349; 2952996808; 3210313671; 3336571891; 3584528711; 113926993; 338241895;
   666307205; 773529912; 1294757372; 1396182291; 1695183700; 1986661051; 2177026350; 2456956037;
   2730485921; 2820302411; 3259730800; 3345764771; 3516065817; 3600352804; 4094571909; 275423344;
   430227734; 506948616; 659060556; 883997877; 958139571; 1322822218; 1537002063; 1747873779;
   1955562222; 2024104815; 2227730452; 2361852424; 2428436474; 2756734187; 3204031479; 3329325298].

Definition H0 : list Z :=
  [0x6a09e667; 0xbb67ae85; 0x3c6ef372; 0xa54ff53a; 0x510e527f; 0x9b05688c; 0x1f83d9ab; 0x5be0cd19].

Definition bytes_of_string (s : string) : list Z :=
  map (fun c => Z.of_nat (nat_of_ascii c)) (list_ascii_of_string s).

(** Padding: the message, 0x80, zeros up to 56 mod 64, the bit length as
    a 64-bit big-endian integer. *)
Definition pad (m : list Z) : list Z :=
  let l := Z.of_nat (length m) in
  let k := Z.to_nat ((55 - l) mod 64) in
  m ++ [0x80] ++ repeat 0 k ++
    map (fun i => Z.land (Z.shiftr (8 * l) (8 * (7 - Z.of_nat i))) 255) (seq 0 8).

Fixpoint words (b : list Z) : list Z :=
  match b with
  | b0 :: b1 :: b2 :: b3 :: r =>
      Z.lor (Z.shiftl b0 24) (Z.lor (Z.shiftl b1 16) (Z.lor (Z.shiftl b2 8) b3)) :: words r
  | _ => []
  end.

Fixpoint blocks (fuel : nat) (b : list Z) : list (list Z) :=
  match fuel with
  | O => []
  | S f => match b with
           | [] => []
           | _ => firstn 64 b :: blocks f (skipn 64 b)
           end
  end.

(** The message schedule W0..W63 of one block. *)
Definition schedule (w16 : list Z) : list Z :=
  fold_left (fun w t =>
      let wt := add32 (add32 (ssig1 (nth (t - 2) w 0)) (nth (t - 7) w 0))
                      (add32 (ssig0 (nth (t - 15) w 0)) (nth (t - 16) w 0)) in
      w ++ [wt]) (seq 16 48) w16.

Definition compress (h : list Z) (blk : list Z) : list Z :=
  let w := schedule (words blk) in
  let '(a, b, c, d, e, f, g, hh) :=
    fold_left (fun '(a, b, c, d, e, f, g, hh) t =>
        let t1 := add32 (add32 (add32 hh (bsig1 e)) (add32 (ch e f g) (nth t K 0))) (nth t w 0) in
        let t2 := add32 (bsig0 a) (maj a b c) in
        (add32 t1 t2, a, b, c, add32 d t1, e, f, g))
      (seq 0 64)
      (nth 0 h 0, nth 1 h 0, nth 2 h 0, nth 3 h 0, nth 4 h 0, nth 5 h 0, nth 6 h 0, nth 7 h 0) in
  map (fun '(x, y) => add32 x y) (combine h [a; b; c; d; e; f; g; hh]).

Definition hex_digit (n : Z) : ascii :=
  if n <? 10 then ascii_of_nat (48 + Z.to_nat n) else ascii_of_nat (87 + Z.to_nat n).

Definition hex_word (x : Z) : list ascii :=
  map (fun i => hex_digit (Z.land (Z.shiftr x (28 - 4 * Z.of_nat i)) 15)) (seq 0 8).

(** Lower-case hexadecimal SHA-256 of a byte string. *)
Definition sha256_hex (s : string) : string :=
  let p := pad (bytes_of_string s) in
  let h := fold_left compress (blocks (length p) p) H0 in
  string_of_list_ascii (concat (map hex_word h)).

End Sha256.

(* ------------------------------------------------------------------ *)
(** ** JSON values and the [encoding/json] scanner

    Objects keep their members in order, duplicates included: Go's decoder
    assigns every member in turn, so the last one of a duplicated key wins
    (or merges, for structs). *)

Module Json.

Inductive json : Type :=
| JNull
| JBool (b : bool)
| JNum (lit : string)
| JStr (s : string)
| JArr (xs : list json)
| JObj (ms : list (string * json)).

Local Open Scope char_scope.

(** The double-quote character, usable in patterns. *)
Abbreviation QUOTE := (Ascii false true false false false true false false).

Definition is_ws (c : ascii) : bool :=
  match c with " " | "009" | "010" | "013" => true | _ => false end.

Fixpoint skip_ws (s : list ascii) : list ascii :=
  match s with c :: r => if is_ws c then skip_ws r else s | [] => [] end.

Definition is_digit (c : ascii) : bool :=
  (48 <=? nat_of_ascii c)%nat && (nat_of_ascii c <=? 57)%nat.

Definition hex_val (c : ascii) : option nat :=
  let n := nat_of_ascii c in
  if (48 <=? n)%nat && (n <=? 57)%nat then Some (n - 48)%nat
  else if (97 <=? n)%nat && (n <=? 102)%nat then Some (n - 87)%nat
  else if (65 <=? n)%nat && (n <=? 70)%nat then Some (n - 55)%nat
  else None.

(** UTF-8 encoding of a \uXXXX escape; a UTF-16 surrogate half is written
    as U+FFFD (Go pairs two valid halves into one code point; this model
    does not). *)
Definition utf8_of (cp : nat) : list ascii :=
  if (cp <? 128)%nat then [ascii_of_nat cp]
  else if (cp <? 2048)%nat then
    [ascii_of_nat (192 + cp / 64); ascii_of_nat (128 + cp mod 64)]
  else if (55296 <=? cp)%nat && (cp <? 57344)%nat then
    [ascii_of_nat 239; ascii_of_nat 191; ascii_of_nat 189]
  else [ascii_of_nat (224 + cp / 4096); ascii_of_nat (128 + (cp / 64) mod 64);
        ascii_of_nat (128 + cp mod 64)].

(** The body of a string literal after its opening quote: the decoded
    bytes and what follows the closing quote. *)
Definition cons_res (d : list ascii) (r : option (list ascii * list ascii))
    : option (list ascii * list ascii) :=
  match r with Some (x, r') => Some (d ++ x, r') | None => None end.

Fixpoint pstring (s : list ascii) : option (list ascii * list ascii) :=
  match s with
  | [] => None
  | QUOTE :: r => Some ([], r)
  | "\" :: e :: r =>
      match e with
      | QUOTE => cons_res [QUOTE] (pstring r)
      | "\" => cons_res ["\"] (pstring r)
      | "/" => cons_res ["/"] (pstring r)
      | "b" => cons_res ["008"] (pstring r)
      | "f" => cons_res ["012"] (pstring r)
      | "n" => cons_res ["010"] (pstring r)
      | "r" => cons_res ["013"] (pstring r)
      | "t" => cons_res ["009"] (pstring r)
      | "u" => match r with
               | h1 :: h2 :: h3 :: h4 :: r' =>
                   match hex_val h1, hex_val h2, hex_val h3, hex_val h4 with
                   | Some a, Some b, Some c, Some d =>
                       cons_res (utf8_of (((a * 16 + b) * 16 + c) * 16 + d)) (pstring r')
                   | _, _, _, _ => None
                   end
               | _ => None
               end
      | _ => None
      end
  | c :: r =>
      if (nat_of_ascii c <? 32)%nat then None else cons_res [c] (pstring r)
  end.

Fixpoint span_digits (s : list ascii) : list ascii * list ascii :=
  match s with
  | c :: r => if is_digit c then let '(d, r') := span_digits r in (c :: d, r') else ([], s)
  | [] => ([], [])
  end.

(** A number literal: an optional minus, 0 or a digit string not starting
    with 0, an optional fraction, an optional exponent. *)
Definition pnumber (s : list ascii) : option (list ascii * list ascii) :=
  let '(sg, s1) := match s with "-" :: r => (["-"], r) | _ => ([], s) end in
  let ip := match s1 with
            | "0" :: r => Some (["0"], r)
            | c :: _ => if is_digit c then Some (span_digits s1) else None
            | [] => None
            end in
  match ip with
  | None => None
  | Some (i, s2) =>
      let fp := match s2 with
                | "." :: r => let '(d, r') := span_digits r in
                              match d with [] => None | _ => Some ("." :: d, r') end
                | _ => Some ([], s2)
                end in
      match fp with
      | None => None
      | Some (f, s3) =>
          let ep := match s3 with
                    | e :: r =>
                        if (Ascii.eqb e "e") || (Ascii.eqb e "E") then
                          let '(sg2, r1) := match r with
                                            | "+" :: r' => (["+"], r') | "-" :: r' => (["-"], r')
                                            | _ => ([], r) end in
                          let '(d, r2) := span_digits r1 in
                          match d with [] => None | _ => Some (e :: sg2 ++ d, r2) end
                        else Some ([], s3)
                    | [] => Some ([], s3)
                    end in
          match ep with
          | None => None
          | Some (x, s4) => Some (sg ++ i ++ f ++ x, s4)
          end
      end
  end.

Fixpoint pvalue (n : nat) (s : list ascii) : option (json * list ascii) :=
  match n with
  | O => None
  | S n' =>
      match skip_ws s with
      | "{" :: r =>
          match skip_ws r with
          | "}" :: r' => Some (JObj [], r')
          | _ => pmembers n' r []
          end
      | "[" :: r =>
          match skip_ws r with
          | "]" :: r' => Some (JArr [], r')
          | _ => pelems n' r []
          end
      | QUOTE :: r =>
          match pstring r with Some (x, r') => Some (JStr (string_of_list_ascii x), r') | None => None end
      | "t" :: "r" :: "u" :: "e" :: r => Some (JBool true, r)
      | "f" :: "a" :: "l" :: "s" :: "e" :: r => Some (JBool false, r)
      | "n" :: "u" :: "l" :: "l" :: r => Some (JNull, r)
      | s' => match pnumber s' with
              | Some (lit, r) => Some (JNum (string_of_list_ascii lit), r)
              | None => None
              end
      end
  end
with pmembers (n : nat) (s : list ascii) (acc : list (string * json))
    : option (json * list ascii) :=
  match n with
  | O => None
  | S n' =>
      match skip_ws s with
      | QUOTE :: r =>
          match pstring r with
          | Some (k, r1) =>
              match skip_ws r1 with
              | ":" :: r2 =>
                  match pvalue n' r2 with
                  | Some (v, r3) =>
                      let acc' := acc ++ [(string_of_list_ascii k, v)] in
                      match skip_ws r3 with
                      | "," :: r4 => pmembers n' r4 acc'
                      | "}" :: r4 => Some (JObj acc', r4)
                      | _ => None
                      end
                  | None => None
                  end
              | _ => None
              end
          | None => None
          end
      | _ => None
      end
  end
with pelems (n : nat) (s : list ascii) (acc : list json) : option (json * list ascii) :=
  match n with
  | O => None
  | S n' =>
      match pvalue n' s with
      | Some (v, r) =>
          match skip_ws r with
          | "," :: r' => pelems n' r' (acc ++ [v])
          | "]" :: r' => Some (JArr (acc ++ [v]), r')
          | _ => None
          end
      | None => None
      end
  end.

(** [json.Unmarshal]'s syntax check: exactly one value, surrounded by
    white space only.  [None] is Go's [SyntaxError]. *)
Definition parse (b : string) : option json :=
  let s := list_ascii_of_string b in
  match pvalue (S (length s)) s with
  | Some (v, r) => match skip_ws r with [] => Some v | _ => None end
  | None => None
  end.

(** [json.NewDecoder(r).Decode]: the first value of the stream; what
    follows it is not read. *)
Definition parse_first (b : string) : option json :=
  let s := list_ascii_of_string b in
  match pvalue (S (length s)) s with
  | Some (v, _) => Some v
  | None => None
  end.

(** Writes a JSON text with ['] for the double quote: [jq "{'a':1}"]. *)
Definition jq (s : string) : string :=
  string_of_list_ascii
    (map (fun c => if (Ascii.eqb c "'") then QUOTE else c) (list_ascii_of_string s)).

End Json.

(* ------------------------------------------------------------------ *)
(** ** Go's typed JSON decoding ([json.Unmarshal], [json.Decoder.Decode])

    A Go type is described by [gty]; a value of it by [gval].  Decoding
    follows [encoding/json]'s rules as the handlers meet them:
    - object keys select struct fields case-insensitively, unknown keys are
      skipped, a repeated key decodes again into the field's current value;
    - [null] leaves strings, numbers and structs alone and sets pointers,
      slices, maps and interfaces to nil;
    - a literal of the wrong kind is a "soft" error (an
      [UnmarshalTypeError]): it is recorded and decoding goes on;
    - a field of a type with its own [UnmarshalJSON] ([v1.Hash]) that fails
      aborts the whole decoding ("hard" error), what was decoded so far
      staying in place.
    Not modelled: base64 validity for [[]byte], decoding JSON arrays into
    [[]byte], stale elements beyond a slice's length. *)

Module GoJson.
Import Json.

Inductive gty : Type :=
| TString | TInt64 | TBytes | THash | TAny
| TSlice (t : gty) | TMap (t : gty) | TPtr (t : gty)
| TStruct (fs : list (string * gty)).

Inductive gval : Type :=
| VString (s : string)
| VInt (z : Z)
| VBytes (s : string)
| VHash (alg hex : string)
| VAny (j : json)
| VSlice (isnil : bool) (xs : list gval)
| VMap (isnil : bool) (kvs : list (string * gval))
| VPtr (p : option gval)
| VStruct (fs : list (string * gval)).

Inductive derr : Type := DOk | DSoft | DHard.

Fixpoint zero (t : gty) : gval :=
  match t with
  | TString => VString "" | TInt64 => VInt 0 | TBytes => VBytes ""
  | THash => VHash "" "" | TAny => VAny JNull
  | TSlice _ => VSlice true [] | TMap _ => VMap true [] | TPtr _ => VPtr None
  | TStruct fs =>
      VStruct ((fix zs (fs : list (string * gty)) :=
                  match fs with [] => [] | (n, t') :: r => (n, zero t') :: zs r end) fs)
  end.

(** ASCII case folding, as Go matches object keys to field names. *)
Definition lower (c : ascii) : ascii :=
  let n := nat_of_ascii c in
  if (65 <=? n)%nat && (n <=? 90)%nat then ascii_of_nat (n + 32) else c.

Definition fold_eq (a b : string) : bool :=
  String.eqb (string_of_list_ascii (map lower (list_ascii_of_string a)))
             (string_of_list_ascii (map lower (list_ascii_of_string b))).

Fixpoint find_field (k : string) (fs : list (string * gty)) : option (string * gty) :=
  match fs with
  | [] => None
  | (n, t) :: r => if fold_eq n k then Some (n, t) else find_field k r
  end.

Fixpoint assoc {A} (k : string) (l : list (string * A)) : option A :=
  match l with [] => None | (n, x) :: r => if String.eqb n k then Some x else assoc k r end.

Fixpoint set_assoc {A} (k : string) (x : A) (l : list (string * A)) : list (string * A) :=
  match l with
  | [] => [(k, x)]
  | (n, y) :: r => if String.eqb n k then (n, x) :: r else (n, y) :: set_assoc k x r
  end.

(** Decimal digit string to its value. *)
Fixpoint digits_value (acc : Z) (s : list ascii) : option Z :=
  match s with
  | [] => Some acc
  | c :: r => if Json.is_digit c then digits_value (10 * acc + (Z.of_nat (nat_of_ascii c) - 48)) r
              else None
  end.

(** [strconv.ParseInt(lit, 10, 64)] on a JSON number literal, as the
    decoder stores a number into an [int64] field. *)
Definition int64_of_lit (lit : string) : option Z :=
  let '(neg, ds) := match list_ascii_of_string lit with
                    | "-"%char :: r => (true, r) | r => (false, r) end in
  match ds with
  | [] => None
  | _ => match digits_value 0 ds with
         | Some v => let z := if neg then - v else v in
                     if (- 2 ^ 63 <=? z) && (z <? 2 ^ 63) then Some z else None
         | None => None
         end
  end.

(** [v1.NewHash] / [Hash.parse]: exactly one colon, a lower-case hex part,
    the algorithm [sha256] and 64 hex digits. *)
Definition parse_hash (s : string) : option (string * string) :=
  let cs := list_ascii_of_string s in
  let parts := (fix split (l : list ascii) (cur : list ascii) : list (list ascii) :=
                  match l with
                  | [] => [cur]
                  | c :: r => if (Ascii.eqb c ":") then cur :: split r [] else split r (cur ++ [c])
                  end) cs [] in
  match parts with
  | [alg; hex] =>
      let is_hex c := existsb (fun d => (Ascii.eqb c d)) (list_ascii_of_string "0123456789abcdef") in
      if forallb is_hex hex && String.eqb (string_of_list_ascii alg) "sha256"
         && (length hex =? 64)%nat
      then Some (string_of_list_ascii alg, string_of_list_ascii hex) else None
  | _ => None
  end.

Definition soft (e : derr) : derr := match e with DOk => DSoft | _ => e end.

(** The loops over array elements, object members into a map, and object
    members into a struct, each given the element decoder [dec]. *)
Definition slice_loop (dec : json -> gty -> gval -> gval * derr) (t' : gty) (old : list gval)
  : nat -> list json -> list gval -> derr -> gval * derr :=
  fix go (i : nat) (ys : list json) (acc : list gval) (e : derr) : gval * derr :=
    match ys with
    | [] => (VSlice false acc, e)
    | y :: r =>
        let '(x, e') := dec y t' (nth i old (zero t')) in
        match e' with
        | DHard => (VSlice false (acc ++ [x] ++ skipn (S i) old), DHard)
        | DSoft => go (S i) r (acc ++ [x]) (soft e)
        | DOk => go (S i) r (acc ++ [x]) e
        end
    end.

Definition map_loop (dec : json -> gty -> gval -> gval * derr) (t' : gty)
  : list (string * json) -> list (string * gval) -> derr -> gval * derr :=
  fix go (ms : list (string * json)) (acc : list (string * gval)) (e : derr) :=
    match ms with
    | [] => (VMap false acc, e)
    | (k, y) :: r =>
        let '(x, e') := dec y t' (zero t') in
        match e' with
        | DHard => (VMap false acc, DHard)
        | DSoft => go r (set_assoc k x acc) (soft e)
        | DOk => go r (set_assoc k x acc) e
        end
    end.

Definition struct_loop (dec : json -> gty -> gval -> gval * derr) (fs : list (string * gty))
  : list (string * json) -> list (string * gval) -> derr -> gval * derr :=
  fix go (ms : list (string * json)) (fvs : list (string * gval)) (e : derr) :=
    match ms with
    | [] => (VStruct fvs, e)
    | (k, y) :: r =>
        match find_field k fs with
        | None => go r fvs e
        | Some (n, ft) =>
            let fcur := match assoc n fvs with Some x => x | None => zero ft end in
            let '(x, e') := dec y ft fcur in
            match e' with
            | DHard => (VStruct (set_assoc n x fvs), DHard)
            | DSoft => go r (set_assoc n x fvs) (soft e)
            | DOk => go r (set_assoc n x fvs) e
            end
        end
    end.

Fixpoint decode (v : json) : gty -> gval -> gval * derr :=
  fix dt (t : gty) (cur : gval) {struct t} : gval * derr :=
    match t with
    | TPtr t' =>
        match v with
        | JNull => (VPtr None, DOk)
        | _ => let p := match cur with VPtr (Some x) => x | _ => zero t' end in
               let '(x, e) := dt t' p in (VPtr (Some x), e)
        end
    | TString => match v with JStr s => (VString s, DOk) | JNull => (cur, DOk) | _ => (cur, DSoft) end
    | TInt64 =>
        match v with
        | JNum lit => match int64_of_lit lit with Some z => (VInt z, DOk) | None => (cur, DSoft) end
        | JNull => (cur, DOk)
        | _ => (cur, DSoft)
        end
    | TBytes => match v with
                | JStr s => (VBytes s, DOk) | JNull => (VBytes "", DOk) | JArr _ => (cur, DOk)
                | _ => (cur, DSoft) end
    | THash => match v with
               | JStr s => match parse_hash s with
                           | Some (a, h) => (VHash a h, DOk) | None => (cur, DHard) end
               | _ => (cur, DHard)
               end
    | TAny => (VAny v, DOk)
    | TSlice t' =>
        match v with
        | JArr ys =>
            let old := match cur with VSlice _ xs => xs | _ => [] end in
            slice_loop decode t' old O ys [] DOk
        | JNull => (VSlice true [], DOk)
        | _ => (cur, DSoft)
        end
    | TMap t' =>
        match v with
        | JObj ms =>
            let old := match cur with VMap _ kvs => kvs | _ => [] end in
            map_loop decode t' ms old DOk
        | JNull => (VMap true [], DOk)
        | _ => (cur, DSoft)
        end
    | TStruct fs =>
        match v with
        | JObj ms =>
            let fvs0 := match cur with VStruct fvs => fvs | _ => [] end in
            struct_loop decode fs ms fvs0 DOk
        | JNull => (cur, DOk)
        | _ => (cur, DSoft)
        end
    end.

(** [json.Unmarshal(data, &v)] into a fresh [v] of type [t]: the value
    and whether an error is returned. *)
Definition unmarshal (t : gty) (b : string) : gval * bool :=
  match parse b with
  | None => (zero t, true)
  | Some v => let '(x, e) := decode v t (zero t) in (x, match e with DOk => false | _ => true end)
  end.

(** [json.NewDecoder(bytes.NewReader(b)).Decode(&v)]. *)
Definition decoder_decode (t : gty) (b : string) : gval * bool :=
  match parse_first b with
  | None => (zero t, true)
  | Some v => let '(x, e) := decode v t (zero t) in (x, match e with DOk => false | _ => true end)
  end.

(** Field and value accessors. *)
Definition field (n : string) (v : gval) : option gval :=
  match v with VStruct fs => assoc n fs | _ => None end.
Definition get_string (o : option gval) : string :=
  match o with Some (VString s) => s | _ => "" end.
Definition get_int (o : option gval) : Z :=
  match o with Some (VInt z) => z | _ => 0 end.
Definition get_list (o : option gval) : list gval :=
  match o with Some (VSlice _ xs) => xs | _ => [] end.
Definition get_ptr (o : option gval) : option gval :=
  match o with Some (VPtr p) => p | _ => None end.
(** [Hash.String()]: algorithm, colon, hex; the zero [Hash] gives [":"]. *)
Definition get_hash (o : option gval) : string :=
  match o with Some (VHash a h) => (a ++ ":" ++ h)%string | _ => ":" end.

End GoJson.

(* ------------------------------------------------------------------ *)
(** ** Go library helpers: [types.MediaType], [strconv.Atoi], [path.Clean],
    [url.JoinPath], [http.Header], [json.Marshal] *)

Module GoLib.
Import Json GoJson.

(** go-containerregistry [pkg/v1/types]. *)
Definition OCIImageIndex : string := "application/vnd.oci.image.index.v1+json".
Definition OCIManifestSchema1 : string := "application/vnd.oci.image.manifest.v1+json".
Definition OCIRestrictedLayer : string := "application/vnd.oci.image.layer.nondistributable.v1.tar+gzip".
Definition OCIUncompressedRestrictedLayer : string := "application/vnd.oci.image.layer.nondistributable.v1.tar".
Definition DockerManifestSchema2 : string := "application/vnd.docker.distribution.manifest.v2+json".
Definition DockerManifestList : string := "application/vnd.docker.distribution.manifest.list.v2+json".
Definition DockerForeignLayer : string := "application/vnd.docker.image.rootfs.foreign.diff.tar.gzip".

Definition IsIndex (m : string) : bool :=
  String.eqb m OCIImageIndex || String.eqb m DockerManifestList.
Definition IsImage (m : string) : bool :=
  String.eqb m OCIManifestSchema1 || String.eqb m DockerManifestSchema2.
Definition IsDistributable (m : string) : bool :=
  negb (String.eqb m DockerForeignLayer || String.eqb m OCIRestrictedLayer
        || String.eqb m OCIUncompressedRestrictedLayer).

(** [strconv.Atoi] on a 64-bit platform: the value and the error, if any.
    A syntax error gives 0; a value out of range gives the nearest of
    [MaxInt64] and [MinInt64] together with [ErrRange]. *)
Inductive NumError : Type := ErrSyntax | ErrRange.

Definition MaxUint64 : Z := 2 ^ 64 - 1.

(** [strconv.ParseUint(s, 10, 64)] on the digits after the sign. *)
Fixpoint parse_uint10 (n : Z) (s : list ascii) : Z * option NumError :=
  match s with
  | [] => (n, None)
  | c :: r =>
      if Json.is_digit c then
        let d := Z.of_nat (nat_of_ascii c) - 48 in
        if MaxUint64 / 10 + 1 <=? n then (MaxUint64, Some ErrRange)
        else let n1 := n * 10 + d in
             if MaxUint64 <? n1 then (MaxUint64, Some ErrRange) else parse_uint10 n1 r
      else (0, Some ErrSyntax)
  end.

Definition atoi (s : string) : Z * option NumError :=
  let cs := list_ascii_of_string s in
  let len := length cs in
  let '(neg, ds) := match cs with
                    | "-"%char :: r => (true, r) | "+"%char :: r => (false, r) | _ => (false, cs) end in
  if (0 <? len)%nat && (len <? 19)%nat then
    (* fast path for short strings *)
    match ds with
    | [] => (0, Some ErrSyntax)
    | _ => match digits_value 0 ds with
           | Some v => (if neg then - v else v, None)
           | None => (0, Some ErrSyntax)
           end
    end
  else
    (* [strconv.ParseInt(s, 10, 0)] *)
    match cs, ds with
    | [], _ => (0, Some ErrSyntax)
    | _, [] => (0, Some ErrSyntax)
    | _, _ =>
        match parse_uint10 0 ds with
        | (_, Some ErrSyntax) => (0, Some ErrSyntax)
        | (un, rng) =>
            if negb neg && (2 ^ 63 <=? un) then (2 ^ 63 - 1, Some ErrRange)
            else if neg && (2 ^ 63 <? un) then (- 2 ^ 63, Some ErrRange)
            else (if neg then - un else un, rng)
        end
    end.

(** [path.Clean], segment by segment. *)
Fixpoint split_on (sep : ascii) (l : list ascii) (cur : list ascii) : list (list ascii) :=
  match l with
  | [] => [cur]
  | c :: r => if (Ascii.eqb c sep) then cur :: split_on sep r [] else split_on sep r (cur ++ [c])
  end.

Definition clean (p : string) : string :=
  let cs := list_ascii_of_string p in
  let rooted := match cs with "/"%char :: _ => true | _ => false end in
  let segs := split_on "/"%char cs [] in
  let out := fold_left (fun acc seg =>
      match seg with
      | [] => acc
      | ["."%char] => acc
      | ["."%char; "."%char] =>
          match acc with
          | x :: r => if list_eq_dec ascii_dec x ["."%char; "."%char] then seg :: acc else r
          | [] => if rooted then [] else [seg]
          end
      | _ => seg :: acc
      end) segs [] in
  let body := String.concat "/" (map string_of_list_ascii (rev out)) in
  match rooted, body with
  | true, _ => ("/" ++ body)%string
  | false, EmptyString => "."
  | false, _ => body
  end.

(** [path.Join]: the non-empty elements joined by slashes, cleaned. *)
Definition path_join (elems : list string) : string :=
  match filter (fun e => negb (String.eqb e "")) elems with
  | [] => ""
  | ne => clean (String.concat "/" ne)
  end.

(** [u.JoinPath(elem).Path] for a request URL whose escaped path is its
    path (no reserved characters to escape). *)
Definition url_join_path (path elem : string) : string :=
  match list_ascii_of_string path with
  | "/"%char :: _ => path_join [path; elem]
  | _ => string_of_list_ascii (tl (list_ascii_of_string (path_join [("/" ++ path)%string; elem])))
  end.

(** [http.Header]: keys in canonical MIME form; [Set] replaces, [Get]
    canonicalises its argument. *)
Definition upper (c : ascii) : ascii :=
  let n := nat_of_ascii c in
  if (97 <=? n)%nat && (n <=? 122)%nat then ascii_of_nat (n - 32) else c.

Fixpoint canon_from (up : bool) (l : list ascii) : list ascii :=
  match l with
  | [] => []
  | c :: r => (if up then upper c else lower c) :: canon_from (Ascii.eqb c "-") r
  end.

Definition canonical_key (k : string) : string :=
  string_of_list_ascii (canon_from true (list_ascii_of_string k)).

Definition header := list (string * string).
Definition header_set (k v : string) (h : header) : header := set_assoc (canonical_key k) v h.
Definition header_get (h : header) (k : string) : string :=
  match assoc (canonical_key k) h with Some v => v | None => "" end.

(** [fmt.Sprint] of an integer. *)
Fixpoint digits_rev (fuel : nat) (n : Z) : list ascii :=
  match fuel with
  | O => []
  | S f => ascii_of_nat (48 + Z.to_nat (n mod 10)) ::
             (if n <? 10 then [] else digits_rev f (n / 10))
  end.

Definition itoa (n : Z) : string :=
  let a := Z.abs n in
  string_of_list_ascii ((if n <? 0 then ["-"%char] else []) ++
                        rev (digits_rev (S (Z.to_nat (Z.log2 (a + 1)))) a)).

(** [json.Marshal] of a string (HTML-safe escaping). *)
Definition hexchar (n : nat) : ascii :=
  if (n <? 10)%nat then ascii_of_nat (48 + n) else ascii_of_nat (87 + n).

Definition escape_char (c : ascii) : list ascii :=
  let n := nat_of_ascii c in
  if (Ascii.eqb c QUOTE) then ["\"%char; QUOTE]
  else if (Ascii.eqb c "\") then ["\"%char; "\"%char]
  else if (n =? 8)%nat then ["\"%char; "b"%char]
  else if (n =? 12)%nat then ["\"%char; "f"%char]
  else if (n =? 10)%nat then ["\"%char; "n"%char]
  else if (n =? 13)%nat then ["\"%char; "r"%char]
  else if (n =? 9)%nat then ["\"%char; "t"%char]
  else if (n <? 32)%nat || (Ascii.eqb c "<") || (Ascii.eqb c ">") || (Ascii.eqb c "&") then
    ["\"%char; "u"%char; "0"%char; "0"%char; hexchar (n / 16); hexchar (n mod 16)]
  else [c].

Definition quote (s : string) : string :=
  string_of_list_ascii ([QUOTE] ++ concat (map escape_char (list_ascii_of_string s)) ++ [QUOTE]).

Definition marshal_strings (l : list string) : string :=
  ("[" ++ String.concat "," (map quote l) ++ "]")%string.

(** [net/http]'s [StatusText]. *)
Definition status_text (code : Z) : string :=
  match code with
  | 100 => "Continue" | 101 => "Switching Protocols" | 102 => "Processing" | 103 => "Early Hints"
  | 200 => "OK" | 201 => "Created" | 202 => "Accepted" | 203 => "Non-Authoritative Information"
  | 204 => "No Content" | 205 => "Reset Content" | 206 => "Partial Content"
  | 207 => "Multi-Status" | 208 => "Already Reported" | 226 => "IM Used"
  | 300 => "Multiple Choices" | 301 => "Moved Permanently" | 302 => "Found"
  | 303 => "See Other" | 304 => "Not Modified" | 305 => "Use Proxy"
  | 307 => "Temporary Redirect" | 308 => "Permanent Redirect"
  | 400 => "Bad Request" | 401 => "Unauthorized" | 402 => "Payment Required"
  | 403 => "Forbidden" | 404 => "Not Found" | 405 => "Method Not Allowed"
  | 406 => "Not Acceptable" | 407 => "Proxy Authentication Required"
  | 408 => "Request Timeout" | 409 => "Conflict" | 410 => "Gone" | 411 => "Length Required"
  | 412 => "Precondition Failed" | 413 => "Request Entity Too Large"
  | 414 => "Request URI Too Long" | 415 => "Unsupported Media Type"
  | 416 => "Requested Range Not Satisfiable" | 417 => "Expectation Failed"
  | 418 => "I'm a teapot" | 421 => "Misdirected Request" | 422 => "Unprocessable Entity"
  | 423 => "Locked" | 424 => "Failed Dependency" | 425 => "Too Early"
  | 426 => "Upgrade Required" | 428 => "Precondition Required" | 429 => "Too Many Requests"
  | 431 => "Request Header Fields Too Large" | 451 => "Unavailable For Legal Reasons"
  | 500 => "Internal Server Error" | 501 => "Not Implemented" | 502 => "Bad Gateway"
  | 503 => "Service Unavailable" | 504 => "Gateway Timeout"
  | 505 => "HTTP Version Not Supported" | 506 => "Variant Also Negotiates"
  | 507 => "Insufficient Storage" | 508 => "Loop Detected" | 510 => "Not Extended"
  | 511 => "Network Authentication Required"
  | _ => ""
  end.

(** [net/http]'s [htmlEscape]: [&], [<], [>], the double quote and [']
    replaced by their HTML references. *)
Definition html_escape_char (c : ascii) : list ascii :=
  if Ascii.eqb c "&"%char then list_ascii_of_string "&amp;"
  else if Ascii.eqb c "<"%char then list_ascii_of_string "&lt;"
  else if Ascii.eqb c ">"%char then list_ascii_of_string "&gt;"
  else if Ascii.eqb c QUOTE then list_ascii_of_string "&#34;"
  else if Ascii.eqb c "'"%char then list_ascii_of_string "&#39;"
  else [c].

Definition html_escape (s : string) : string :=
  string_of_list_ascii (concat (map html_escape_char (list_ascii_of_string s))).

(** [net/http]'s [hexEscapeNonASCII]: every byte from 0x80 up written as
    [%] and [strconv.AppendInt(b, 16)] of it (two lower-case hex digits). *)
Definition hex_escape_non_ascii (s : string) : string :=
  string_of_list_ascii
    (concat (map (fun c => let n := nat_of_ascii c in
                           if (128 <=? n)%nat then ["%"%char; hexchar (n / 16); hexchar (n mod 16)]
                           else [c])
                 (list_ascii_of_string s))).

(** The bytes before the first [sep] ([strings.Cut]'s [before]), and the
    suffix from the first [sep] on, [sep] included ([s[strings.Index(s, sep):]],
    empty when there is none). *)
Fixpoint before (sep : ascii) (l : list ascii) : list ascii :=
  match l with [] => [] | c :: r => if Ascii.eqb c sep then [] else c :: before sep r end.
Fixpoint from_sep (sep : ascii) (l : list ascii) : list ascii :=
  match l with [] => [] | c :: r => if Ascii.eqb c sep then l else from_sep sep r end.

(** [net/url]'s [unescape] on a path, fragment or userinfo part: it fails
    exactly on a [%] not followed by two hex digits. *)
Definition is_hex (c : ascii) : bool := match hex_val c with Some _ => true | None => false end.
Fixpoint escapes_ok (l : list ascii) : bool :=
  match l with
  | [] => true
  | c :: r =>
      if Ascii.eqb c "%"%char then
        match r with
        | h1 :: h2 :: r' => is_hex h1 && is_hex h2 && escapes_ok r'
        | _ => false
        end
      else escapes_ok r
  end.

(** [stringContainsCTLByte]. *)
Definition is_ctl (c : ascii) : bool := (nat_of_ascii c <? 32)%nat || (nat_of_ascii c =? 127)%nat.

Definition is_letter (c : ascii) : bool :=
  let n := nat_of_ascii c in ((65 <=? n) && (n <=? 90) || (97 <=? n) && (n <=? 122))%nat.

(** [net/url]'s [getScheme]: an error, no scheme, or a non-empty scheme. *)
Inductive SchemeResult : Type := SchemeErr | NoScheme | HasScheme.

Fixpoint get_scheme (first : bool) (l : list ascii) : SchemeResult :=
  match l with
  | [] => NoScheme
  | c :: r =>
      if is_letter c then get_scheme false r
      else if is_digit c || Ascii.eqb c "+"%char || Ascii.eqb c "-"%char || Ascii.eqb c "."%char then
        (if first then NoScheme else get_scheme false r)
      else if Ascii.eqb c ":"%char then (if first then SchemeErr else HasScheme)
      else NoScheme
  end.

(** [net/url]'s [validUserinfo], byte by byte (a byte from 0x80 up is
    part of a rune that is refused). *)
Definition userinfo_char (c : ascii) : bool :=
  is_letter c || is_digit c ||
  existsb (Ascii.eqb c) (list_ascii_of_string "-._:~!$&'()*+,;=%@").

(** [parseAuthority(authority)] succeeding with an empty host: the host
    part after the last [@] is empty, and the userinfo before it is valid
    and unescapes (its user and password parts separately). *)
Definition authority_empty_host (auth : list ascii) : bool :=
  match rev auth with
  | [] => true
  | c :: ru =>
      if Ascii.eqb c "@"%char then
        let ui := rev ru in
        forallb userinfo_char ui &&
        (if existsb (Ascii.eqb ":"%char) ui
         then escapes_ok (before ":"%char ui) && escapes_ok (tl (from_sep ":"%char ui))
         else escapes_ok ui)
      else false
  end.

(** [u, err := url.Parse(s)] with [err == nil && u.Scheme == "" && u.Host == ""]:
    the fragment is cut off at the first [#]; the rest has no control
    byte, no scheme, no colon in its first segment unless it starts with a
    slash, an empty authority when it starts with exactly two slashes, and
    valid escapes in the path and the fragment.  The query (after the first
    [?]) is not checked by [Parse]. *)
Definition url_relative (s : string) : bool :=
  let cs := list_ascii_of_string s in
  let u := before "#"%char cs in
  let frag := tl (from_sep "#"%char cs) in
  if existsb is_ctl u then false else
  match get_scheme true u with
  | SchemeErr | HasScheme => false
  | NoScheme =>
      let rest := before "?"%char u in
      let colon_first := match rest with
                         | "/"%char :: _ => false
                         | _ => existsb (Ascii.eqb ":"%char) (before "/"%char rest)
                         end in
      if colon_first then false else
      let '(host_ok, p) := match rest with
                           | "/"%char :: "/"%char :: "/"%char :: _ => (true, rest)
                           | "/"%char :: "/"%char :: a =>
                               (authority_empty_host (before "/"%char a), from_sep "/"%char a)
                           | _ => (true, rest)
                           end in
      host_ok && escapes_ok p && escapes_ok frag
  end.

(** [path.Split(p)]'s directory: [p] up to and including its last slash. *)
Fixpoint to_slash (l : list ascii) : list ascii :=
  match l with [] => [] | c :: r => if Ascii.eqb c "/"%char then l else to_slash r end.
Definition path_dir (p : string) : string :=
  string_of_list_ascii (rev (to_slash (rev (list_ascii_of_string p)))).

Definition ends_with_slash (l : list ascii) : bool :=
  match rev l with "/"%char :: _ => true | _ => false end.

(** The location [http.Redirect] writes: a relative [url] is made
    absolute against the request path [oldpath] and cleaned, keeping a
    trailing slash and the query. *)
Definition redirect_url (oldpath url : string) : string :=
  if url_relative url then
    let oldpath := if String.eqb oldpath "" then "/"%string else oldpath in
    let url := match list_ascii_of_string url with
               | "/"%char :: _ => url
               | _ => (path_dir oldpath ++ url)%string
               end in
    let cs := list_ascii_of_string url in
    let u := before "?"%char cs in
    let query := string_of_list_ascii (from_sep "?"%char cs) in
    let c := clean (string_of_list_ascii u) in
    let c := if ends_with_slash u && negb (ends_with_slash (list_ascii_of_string c))
             then (c ++ "/")%string else c in
    (c ++ query)%string
  else url.

End GoLib.

(* ------------------------------------------------------------------ *)
(** ** The data model: manifest records, descriptors, errors, responses *)

Module Registry.
Import Json GoJson GoLib.

(** [manifest.Blob] and [manifest.Manifest]; a [v1.Hash] is kept as its
    [String()]. *)
Record Blob : Type := { BDigest : string; BSize : Z }.
Record Manifest : Type := { ContentType : string; MBlob : Blob }.

(** go-containerregistry [v1.Platform], [v1.Descriptor], [v1.IndexManifest],
    [v1.Manifest], as decoding targets. *)
Definition platform_ty : gty :=
  TStruct [("architecture", TString); ("os", TString); ("os.version", TString);
           ("os.features", TSlice TString); ("variant", TString); ("features", TSlice TString)].
Definition descriptor_ty : gty :=
  TStruct [("mediaType", TString); ("size", TInt64); ("digest", THash); ("data", TBytes);
           ("urls", TSlice TString); ("annotations", TMap TString);
           ("platform", TPtr platform_ty); ("artifactType", TString)].
Definition index_manifest_ty : gty :=
  TStruct [("schemaVersion", TInt64); ("mediaType", TString);
           ("manifests", TSlice descriptor_ty); ("annotations", TMap TString);
           ("subject", TPtr descriptor_ty)].
Definition manifest_ty : gty :=
  TStruct [("schemaVersion", TInt64); ("mediaType", TString); ("config", descriptor_ty);
           ("layers", TSlice descriptor_ty); ("annotations", TMap TString);
           ("subject", TPtr descriptor_ty)].

(** The fields of a decoded descriptor the handlers read. *)
Record Descriptor : Type := { DMediaType : string; DSize : Z; DDigest : string }.

Definition desc_of (v : gval) : Descriptor :=
  {| DMediaType := get_string (field "mediaType" v);
     DSize := get_int (field "size" v);
     DDigest := get_hash (field "digest" v) |}.

Definition sub (n : string) (o : option gval) : option gval :=
  match o with Some v => field n v | None => None end.

(** [v1.ParseIndexManifest]: the manifests of the index, or an error. *)
Definition ParseIndexManifest (b : string) : option (list Descriptor) :=
  let '(v, err) := decoder_decode index_manifest_ty b in
  if err then None else Some (map desc_of (get_list (field "manifests" v))).

(** [v1.ParseManifest]: config, optional subject and layers. *)
Definition ParseManifest (b : string)
    : option (Descriptor * option Descriptor * list Descriptor) :=
  let '(v, err) := decoder_decode manifest_ty b in
  if err then None
  else match field "config" v with
       | Some c => Some (desc_of c, option_map desc_of (get_ptr (field "subject" v)),
                         map desc_of (get_list (field "layers" v)))
       | None => None
       end.

(** [v1.SHA256] of the buffered body, as [Hash.String()]. *)
Definition sha256_digest (b : string) : string := ("sha256:" ++ Sha256.sha256_hex b)%string.

(** Go's [%q] of a digest string (no character of a digest needs escaping). *)
Definition dq (s : string) : string := string_of_list_ascii ([QUOTE] ++ list_ascii_of_string s ++ [QUOTE]).

(** [regError] as the handlers return it. *)
Record regError : Type := { Status : Z; Code : string; Message : string }.

(** Modelled from the spec: the well-known errors of the registry's error
    file ([regErrDenied], ... ; the file is not among the sources), with
    the HTTP statuses and codes of the spec's error table. *)
Definition regErrDenied : regError := {| Status := 403; Code := "DENIED"; Message := "access denied" |}.
Definition regErrDeniedQuotaExceeded : regError :=
  {| Status := 403; Code := "DENIED"; Message := "quota exceeded" |}.
Definition regErrNameInvalid : regError :=
  {| Status := 400; Code := "NAME_INVALID"; Message := "invalid name" |}.
Definition regErrNameUnknown : regError :=
  {| Status := 404; Code := "NAME_UNKNOWN"; Message := "Unknown name" |}.
Definition regErrManifestUnknown : regError :=
  {| Status := 404; Code := "MANIFEST_UNKNOWN"; Message := "Unknown manifest" |}.
Definition regErrMethodUnknown : regError :=
  {| Status := 405; Code := "METHOD_UNKNOWN"; Message := "We don't understand your method + url" |}.
Definition regErrManifestInvalid (msg : string) : regError :=
  {| Status := 400; Code := "MANIFEST_INVALID"; Message := msg |}.
Definition regErrInternal (msg : string) : regError :=
  {| Status := 500; Code := "INTERNAL"; Message := msg |}.

(** [checkIncompatibleManifest]. *)
Definition blobs_check_ty : gty := TStruct [("blobs", TSlice TAny)].

Definition checkIncompatibleManifest (data : string) : option regError :=
  let '(mf, err) := unmarshal blobs_check_ty data in
  if err then Some (regErrManifestInvalid "json: cannot unmarshal manifest")
  else if (0 <? length (get_list (field "blobs" mf)))%nat then
    Some (regErrManifestInvalid "non-compliant manifest with blobs entry detected")
  else None.

(** What a handler writes when it returns nil. *)
Record Response : Type := { RStatus : Z; RHeader : header; RBody : string }.

(** One descriptor of the referrers index. *)
Record RefDescriptor : Type :=
  { RMediaType : string; RSize : Z; RDigest : string; RArtifactType : string }.

(** [json.Marshal] of [v1.Descriptor] (fields left at their zero value
    are [omitempty]) and of [v1.IndexManifest]. *)
Definition marshal_descriptor (d : RefDescriptor) : string :=
  ("{" ++ quote "mediaType" ++ ":" ++ quote (RMediaType d) ++ ","
       ++ quote "size" ++ ":" ++ itoa (RSize d) ++ ","
       ++ quote "digest" ++ ":" ++ quote (RDigest d)
       ++ (if String.eqb (RArtifactType d) "" then ""
           else "," ++ quote "artifactType" ++ ":" ++ quote (RArtifactType d))
       ++ "}")%string.

Definition marshal_index (schemaVersion : Z) (mediaType : string) (ms : list RefDescriptor) : string :=
  ("{" ++ quote "schemaVersion" ++ ":" ++ itoa schemaVersion ++ ","
       ++ (if String.eqb mediaType "" then "" else quote "mediaType" ++ ":" ++ quote mediaType ++ ",")
       ++ quote "manifests" ++ ":[" ++ String.concat "," (map marshal_descriptor ms) ++ "]}")%string.

(** [json.Marshal] of [listTags] and [catalog]. *)
Definition marshal_list_tags (name : string) (tags : list string) : string :=
  ("{" ++ quote "name" ++ ":" ++ quote name ++ "," ++ quote "tags" ++ ":" ++ marshal_strings tags ++ "}")%string.
Definition marshal_catalog (repos : list string) : string :=
  ("{" ++ quote "repositories" ++ ":" ++ marshal_strings repos ++ "}")%string.

End Registry.

(* ------------------------------------------------------------------ *)
(** ** The collaborators: manifest store, blob store, authorizer, auditor

    Modelled from the spec (section 6, "Collaborator interfaces"): the
    packages [internal/registry/manifest], [internal/registry/blob],
    [internal/registry/authz], [internal/registry/audit] and [internal/db]
    are not among the sources.  The world holds the manifest records by
    [(repo, reference)], the blob bytes by [(repo, digest)], the blob
    backend's capabilities and redirect policy, the store's quota and the
    authorizer's decisions; every call a handler makes is appended to a log,
    so that what a handler reached (and with which arguments) can be read
    off. *)

Module Store.
Import GoJson GoLib Registry.

Inductive Action : Type := ActionRead | ActionStat | ActionWrite.

Inductive AuthzError : Type := ErrAccessDenied | ErrInvalidArtifactName | AuthzOther (msg : string).

Inductive StoreErr : Type := ErrNameUnknown | ErrManifestUnknown | ErrQuotaExceeded | ErrBlobUnknown.

Definition store_err_msg (e : StoreErr) : string :=
  match e with
  | ErrNameUnknown => "name unknown" | ErrManifestUnknown => "manifest unknown"
  | ErrQuotaExceeded => "quota exceeded" | ErrBlobUnknown => "blob unknown"
  end.

(** [blob.BlobHandler.Get]: bytes, a [RedirectError], or another error. *)
Inductive BlobResult : Type :=
| BBytes (b : string)
| BRedirect (location : string) (code : Z)
| BError (e : StoreErr).

Inductive Call : Type :=
| CAuthorize (repo : string) (a : Action)
| CAuthorizeReference (repo ref : string) (a : Action)
| CManifestGet (repo ref : string)
| CManifestPut (repo ref : string) (m : Manifest) (deps : list Blob)
| CListTags (repo : string) (n : Z) (last : string)
| CListDigests (repo : string)
| CList (n : Z)
| CBlobGet (repo dig : string) (allowRedirect : bool)
| CBlobStat (repo dig : string)
| CBlobPut (repo dig ct body : string)
| CAuditPull (repo target : string).

Record World : Type := mkWorld {
  WManifests : gmap (string * string) (Manifest * list Blob);
  WBlobs : gmap (string * string) string;
  WRedirect : string -> string -> option (string * Z);
  WCanStat : bool;
  WCanPut : bool;
  WQuota : nat;
  WAuthz : string -> option string -> Action -> option AuthzError;
  WLog : list Call }.

Definition add_log (c : Call) (w : World) : World :=
  mkWorld (WManifests w) (WBlobs w) (WRedirect w) (WCanStat w) (WCanPut w) (WQuota w)
          (WAuthz w) (WLog w ++ [c]).
Definition with_manifests (m : gmap (string * string) (Manifest * list Blob)) (w : World) : World :=
  mkWorld m (WBlobs w) (WRedirect w) (WCanStat w) (WCanPut w) (WQuota w) (WAuthz w) (WLog w).
Definition with_blobs (b : gmap (string * string) string) (w : World) : World :=
  mkWorld (WManifests w) b (WRedirect w) (WCanStat w) (WCanPut w) (WQuota w) (WAuthz w) (WLog w).

(** A stateful call. *)
Definition St (A : Type) : Type := World -> A * World.

Definition repo_refs (repo : string) (w : World) : list string :=
  map (fun kv => snd (fst kv))
      (List.filter (fun kv => String.eqb (fst (fst kv)) repo) (map_to_list (WManifests w))).

Definition repo_known (repo : string) (w : World) : bool :=
  match repo_refs repo w with [] => false | _ => true end.

Fixpoint insert_sorted (s : string) (l : list string) : list string :=
  match l with
  | [] => [s]
  | x :: r => if String.leb s x then s :: l else x :: insert_sorted s r
  end.
Definition sort_strings (l : list string) : list string := fold_right insert_sorted [] l.

Definition is_digest (r : string) : bool :=
  match parse_hash r with Some _ => true | None => false end.

(** [ManifestHandler.Get]. *)
Definition manifest_get (repo ref : string) : St (StoreErr + Manifest) := fun w =>
  (if repo_known repo w then
     match WManifests w !! (repo, ref) with
     | Some (m, _) => inr m
     | None => inl ErrManifestUnknown
     end
   else inl ErrNameUnknown, add_log (CManifestGet repo ref) w).

(** [ManifestHandler.Put]: records [m] with its dependencies under
    [(repo, ref)]; a new reference beyond the quota is refused. *)
Definition manifest_put (repo ref : string) (m : Manifest) (deps : list Blob)
    : St (option StoreErr) := fun w =>
  let w := add_log (CManifestPut repo ref m deps) w in
  match WManifests w !! (repo, ref) with
  | None => if (WQuota w <=? size (WManifests w))%nat then (Some ErrQuotaExceeded, w)
            else (None, with_manifests (<[(repo, ref) := (m, deps)]> (WManifests w)) w)
  | Some _ => (None, with_manifests (<[(repo, ref) := (m, deps)]> (WManifests w)) w)
  end.

(** [ManifestHandler.ListTags]: the tags (references that are not digests)
    in ascending order, those after [last], at most [n]. *)
Definition list_tags (repo : string) (n : Z) (last : string) : St (StoreErr + list string) := fun w =>
  (if repo_known repo w then
     let tags := sort_strings (List.filter (fun r => negb (is_digest r)) (repo_refs repo w)) in
     let after := if String.eqb last "" then tags else List.filter (fun t => String.ltb last t) tags in
     inr (firstn (Z.to_nat n) after)
   else inl ErrNameUnknown, add_log (CListTags repo n last) w).

(** [ManifestHandler.ListDigests]: the references of the repository that
    are digests. *)
Definition list_digests (repo : string) : St (StoreErr + list string) := fun w =>
  (if repo_known repo w then inr (List.filter is_digest (repo_refs repo w))
   else inl ErrNameUnknown, add_log (CListDigests repo) w).

(** [ManifestHandler.List]: repository names in ascending order, at most [n]. *)
Definition list_repos (n : Z) : St (StoreErr + list string) := fun w =>
  (inr (firstn (Z.to_nat n)
          (sort_strings (nodup string_dec (map (fun kv => fst (fst kv)) (map_to_list (WManifests w)))))),
   add_log (CList n) w).

(** [BlobHandler.Get]: with [allowRedirect] the backend may answer with a
    redirect directive, whose code is an HTTP status (100..999); otherwise
    the stored bytes, or [ErrBlobUnknown]. *)
Definition blob_get (repo dig : string) (allowRedirect : bool) : St BlobResult := fun w =>
  let stored := match WBlobs w !! (repo, dig) with
                | Some b => BBytes b | None => BError ErrBlobUnknown end in
  (if allowRedirect then
     match WRedirect w repo dig with
     | Some (loc, code) => if (100 <=? code) && (code <=? 999) then BRedirect loc code else stored
     | None => stored
     end
   else stored, add_log (CBlobGet repo dig allowRedirect) w).

(** [BlobStatHandler.Stat]: the size of the stored bytes. *)
Definition blob_stat (repo dig : string) : St (StoreErr + Z) := fun w =>
  (match WBlobs w !! (repo, dig) with
   | Some b => inr (Z.of_nat (String.length b)) | None => inl ErrBlobUnknown end,
   add_log (CBlobStat repo dig) w).

(** [BlobPutHandler.Put]. *)
Definition blob_put (repo dig ct body : string) : St (option StoreErr) := fun w =>
  (None, with_blobs (<[(repo, dig) := body]> (WBlobs w)) (add_log (CBlobPut repo dig ct body) w)).

(** [db.RunTx]: the manifest records written by [f] are kept only if it
    returns no error. *)
Definition run_tx (f : St (list StoreErr)) : St (list StoreErr) := fun w =>
  let '(errs, w') := f w in
  match errs with
  | [] => ([], w')
  | _ => (errs, with_manifests (WManifests w) w')
  end.

(** [Authorizer.Authorize] and [Authorizer.AuthorizeReference]. *)
Definition authorize (repo : string) (a : Action) : St (option AuthzError) := fun w =>
  (WAuthz w repo None a, add_log (CAuthorize repo a) w).
Definition authorize_reference (repo ref : string) (a : Action) : St (option AuthzError) := fun w =>
  (WAuthz w repo (Some ref) a, add_log (CAuthorizeReference repo ref a) w).

(** [ArtifactAuditor.AuditPull]; its errors are only logged by the handlers. *)
Definition audit_pull (repo target : string) : St unit := fun w =>
  (tt, add_log (CAuditPull repo target) w).

End Store.

(* ------------------------------------------------------------------ *)
(** ** The handlers of [manifest.go]

    A handler returns either the [*regError] it returns, or the response it
    wrote when it returns nil; it threads the world through its calls. *)

Module Handlers.
Import Json GoJson GoLib Registry Store.

Definition HM (A : Type) : Type := World -> (regError + A) * World.

Definition hret {A} (x : A) : HM A := fun w => (inr x, w).
Definition hthrow {A} (e : regError) : HM A := fun w => (inl e, w).
Definition hbind {A B} (m : HM A) (k : A -> HM B) : HM B := fun w =>
  match m w with
  | (inl e, w') => (inl e, w')
  | (inr x, w') => k x w'
  end.
Definition lift {A} (m : St A) : HM A := fun w => let '(x, w') := m w in (inr x, w').

Notation "x <- m ;; k" := (hbind m (fun x => k))
  (at level 65, m at next level, right associativity).

(** The authorizer's error mapping shared by all handlers. *)
Definition authz_error (e : AuthzError) : regError :=
  match e with
  | ErrAccessDenied => regErrDenied
  | ErrInvalidArtifactName => regErrNameInvalid
  | AuthzOther msg => regErrInternal msg
  end.

(** [http.Redirect(resp, req, url, code)] for a request with method
    [method] and URL path [oldpath], on a response with no Content-Type set:
    the Location header (the resolved url with its non-ASCII bytes
    hex-escaped), Content-Type text/html for GET and HEAD, the status, and
    for GET a short HTML link written with [fmt.Fprintln].  [WriteHeader]
    panics on a code outside 100..999, which [blob_get] never gives. *)
Definition redirect_response (method oldpath url : string) (code : Z) : Response :=
  let url := redirect_url oldpath url in
  let nl := String "010"%char EmptyString in
  let h := header_set "Location" (hex_escape_non_ascii url) [] in
  let h := if String.eqb method "GET" || String.eqb method "HEAD"
           then header_set "Content-Type" "text/html; charset=utf-8" h else h in
  {| RStatus := code; RHeader := h;
     RBody := if String.eqb method "GET"
              then ("<a href=" ++ String QUOTE (html_escape url ++ String QUOTE
                      (">" ++ status_text code ++ "</a>." ++ nl ++ nl)))%string
              else "" |}.

(** Query strings as [url.Values]: [Get] returns the first value or "". *)
Definition qget (q : list (string * string)) (k : string) : string :=
  match List.find (fun kv => String.eqb (fst kv) k) q with Some (_, v) => v | None => "" end.

Definition numerror_msg (fn s : string) (e : NumError) : string :=
  ("strconv." ++ fn ++ ": parsing " ++ quote s ++ ": "
     ++ match e with ErrSyntax => "invalid syntax" | ErrRange => "value out of range" end)%string.

(** [handleTags]. *)
Definition handleTags (method repo : string) (query : list (string * string)) : HM Response :=
  if String.eqb method "GET" then
    az <- lift (authorize repo ActionRead) ;;
    match az with
    | Some e => hthrow (authz_error e)
    | None =>
        let last := qget query "last" in
        let ns := qget query "n" in
        match (if String.eqb ns "" then inr 10000 else
                 match atoi ns with
                 | (_, Some e) => inl e
                 | (parsed, None) => inr parsed
                 end) with
        | inl e =>
            hthrow {| Status := 400; Code := "BAD_REQUEST";
                      Message := ("parsing n: " ++ numerror_msg "Atoi" ns e)%string |}
        | inr n =>
            r <- lift (list_tags repo n last) ;;
            match r with
            | inl ErrNameUnknown => hthrow regErrNameUnknown
            | inl e => hthrow (regErrInternal (store_err_msg e))
            | inr references =>
                let msg := marshal_list_tags repo references in
                hret {| RStatus := 200;
                        RHeader := header_set "Content-Length" (itoa (Z.of_nat (String.length msg))) [];
                        RBody := msg |}
            end
        end
    end
  else hthrow regErrMethodUnknown.

(** [handleCatalog]. *)
Definition handleCatalog (method : string) (query : list (string * string)) : HM Response :=
  let nStr := qget query "n" in
  let n := if String.eqb nStr "" then 10000 else fst (atoi nStr) in
  if String.eqb method "GET" then
    r <- lift (list_repos n) ;;
    match r with
    | inl e => hthrow (regErrInternal (store_err_msg e))
    | inr repos =>
        let msg := marshal_catalog repos in
        hret {| RStatus := 200;
                RHeader := header_set "Content-Length" (itoa (Z.of_nat (String.length msg))) [];
                RBody := msg |}
    end
  else hthrow regErrMethodUnknown.

(** The two best-effort decodings of [handleReferrers]. *)
Definition ref_pointer_ty : gty := TStruct [("subject", TPtr descriptor_ty)].
Definition image_as_artifact_ty : gty := TStruct [("config", TStruct [("mediaType", TString)])].

(** [refPointer.Subject] after [_ = json.Unmarshal(buf, &refPointer)]. *)
Definition subject_of (buf : string) : option gval :=
  get_ptr (field "subject" (fst (unmarshal ref_pointer_ty buf))).

(** [imageAsArtifact.Config.MediaType] after [_ = json.Unmarshal(buf, &imageAsArtifact)]. *)
Definition artifact_type_of (buf : string) : string :=
  get_string (sub "mediaType" (field "config" (fst (unmarshal image_as_artifact_ty buf)))).

(** The loop of [handleReferrers] over the repository's digests. *)
Fixpoint referrers_loop (repo target : string) (digests : list string) (acc : list RefDescriptor)
    : HM (list RefDescriptor) :=
  match digests with
  | [] => hret acc
  | reference :: rest =>
      g <- lift (manifest_get repo reference) ;;
      match g with
      | inl e => hthrow (regErrInternal (store_err_msg e))
      | inr m =>
          b <- lift (blob_get repo (BDigest (MBlob m)) false) ;;
          match b with
          | BBytes buf =>
              match subject_of buf with
              | None => referrers_loop repo target rest acc
              | Some s =>
                  if negb (String.eqb (get_hash (field "digest" s)) target)
                  then referrers_loop repo target rest acc
                  else referrers_loop repo target rest
                         (acc ++ [{| RMediaType := ContentType m;
                                     RSize := Z.of_nat (String.length buf);
                                     RDigest := reference;
                                     RArtifactType := artifact_type_of buf |}])
              end
          | BError e => hthrow {| Status := 404; Code := "BAD_REQUEST"; Message := store_err_msg e |}
          | BRedirect loc _ => hthrow {| Status := 404; Code := "BAD_REQUEST"; Message := loc |}
          end
      end
  end.

(** [handleReferrers]. *)
Definition handleReferrers (method repo target : string) : HM Response :=
  if negb (String.eqb method "GET") then hthrow regErrMethodUnknown else
  az <- lift (authorize_reference repo target ActionRead) ;;
  match az with
  | Some e => hthrow (authz_error e)
  | None =>
      match parse_hash target with
      | None => hthrow {| Status := 400; Code := "UNSUPPORTED"; Message := "Target must be a valid digest" |}
      | Some _ =>
          r <- lift (list_digests repo) ;;
          match r with
          | inl ErrNameUnknown => hthrow regErrNameUnknown
          | inl e => hthrow (regErrInternal (store_err_msg e))
          | inr digests =>
              ms <- referrers_loop repo target digests [] ;;
              let msg := marshal_index 2 OCIImageIndex ms in
              hret {| RStatus := 200;
                      RHeader := header_set "Content-Type" OCIImageIndex
                                   (header_set "Content-Length" (itoa (Z.of_nat (String.length msg))) []);
                      RBody := msg |}
          end
      end
  end.

(** [handleGet] on a request with URL path [path]. *)
Definition handleGet (repo target path : string) : HM Response :=
  r <- lift (manifest_get repo target) ;;
  match r with
  | inl ErrNameUnknown => hthrow regErrNameUnknown
  | inl ErrManifestUnknown => hthrow regErrManifestUnknown
  | inl e => hthrow (regErrInternal (store_err_msg e))
  | inr m =>
      b <- lift (blob_get repo (BDigest (MBlob m)) true) ;;
      match b with
      | BRedirect loc code =>
          _ <- lift (audit_pull repo target) ;;
          hret (redirect_response "GET" path loc code)
      | BError _ => hthrow regErrManifestUnknown
      | BBytes buf =>
          let h := header_set "Content-Length" (itoa (Z.of_nat (String.length buf)))
                     (header_set "Content-Type" (ContentType m)
                        (header_set "Docker-Content-Digest" (BDigest (MBlob m)) [])) in
          _ <- lift (audit_pull repo target) ;;
          hret {| RStatus := 200; RHeader := h; RBody := buf |}
      end
  end.

(** [handleHead]. *)
Definition handleHead (repo target : string) : HM Response :=
  r <- lift (manifest_get repo target) ;;
  match r with
  | inl ErrNameUnknown => hthrow regErrNameUnknown
  | inl ErrManifestUnknown => hthrow regErrManifestUnknown
  | inl e => hthrow (regErrInternal (store_err_msg e))
  | inr m =>
      fun w =>
        (if WCanStat w then
           l <- lift (blob_stat repo (BDigest (MBlob m))) ;;
           match l with
           | inl _ => hthrow regErrManifestUnknown
           | inr l =>
               _ <- lift (audit_pull repo target) ;;
               hret {| RStatus := 200;
                       RHeader := header_set "Content-Length" (itoa l)
                                    (header_set "Content-Type" (ContentType m)
                                       (header_set "Docker-Content-Digest" (BDigest (MBlob m)) []));
                       RBody := "" |}
           end
         else hthrow (regErrInternal "cannot stat blob")) w
  end.

(** The dependency check of an index in [handlePut]: every distributable
    image or index sub-manifest must already be recorded in [repo]. *)
Fixpoint index_deps (repo : string) (ds : list Descriptor) (blobs : list Blob) : HM (list Blob) :=
  match ds with
  | [] => hret blobs
  | desc :: rest =>
      if negb (IsDistributable (DMediaType desc)) then index_deps repo rest blobs
      else if IsIndex (DMediaType desc) || IsImage (DMediaType desc) then
        g <- lift (manifest_get repo (DDigest desc)) ;;
        match g with
        | inl _ => hthrow {| Status := 404; Code := "MANIFEST_UNKNOWN";
                             Message := ("Sub-manifest " ++ dq (DDigest desc) ++ " not found")%string |}
        | inr _ => index_deps repo rest (blobs ++ [{| BDigest := DDigest desc; BSize := DSize desc |}])
        end
      else (* TODO in the source: blobs are only logged *)
        index_deps repo rest blobs
  end.

(** The dependencies of an image manifest: config, subject, distributable layers. *)
Definition image_deps (cfg : Descriptor) (subj : option Descriptor) (layers : list Descriptor) : list Blob :=
  [{| BDigest := DDigest cfg; BSize := DSize cfg |}]
  ++ match subj with Some s => [{| BDigest := DDigest s; BSize := DSize s |}] | None => [] end
  ++ map (fun d => {| BDigest := DDigest d; BSize := DSize d |})
         (List.filter (fun d => IsDistributable (DMediaType d)) layers).

(** [handlePut], first part: the dependencies collected from the body
    according to the request's [Content-Type] [ct]. *)
Definition put_deps (repo ct body : string) : HM (list Blob) :=
  if IsIndex ct then
    match ParseIndexManifest body with
    | None => hthrow (regErrManifestInvalid "parsing index manifest")
    | Some ds => index_deps repo ds []
    end
  else if IsImage ct then
    match ParseManifest body with
    | None => hthrow (regErrManifestInvalid "parsing manifest")
    | Some (cfg, subj, layers) => hret (image_deps cfg subj layers)
    end
  else hret [].

(** [handlePut], second part: the non-compliance check, the blob [Put],
    the transaction recording the manifest under its digest and under
    [target], and the response. *)
Definition put_store (repo target ct body path : string) (blobs : list Blob) : HM Response :=
  let mf := {| ContentType := ct;
               MBlob := {| BDigest := sha256_digest body; BSize := Z.of_nat (String.length body) |} |} in
  match checkIncompatibleManifest body with
  | Some e => hthrow e
  | None =>
      fun w =>
        (if WCanPut w then
           pe <- lift (blob_put repo (BDigest (MBlob mf)) ct body) ;;
           match pe with
           | Some e => hthrow (regErrInternal (store_err_msg e))
           | None =>
               errs <- lift (run_tx (fun w =>
                         let '(e1, w1) := manifest_put repo (BDigest (MBlob mf)) mf blobs w in
                         let '(e2, w2) := manifest_put repo target mf blobs w1 in
                         (option_list e1 ++ option_list e2, w2))) ;;
               if existsb (fun e => match e with ErrQuotaExceeded => true | _ => false end) errs
               then hthrow regErrDeniedQuotaExceeded
               else match errs with
                    | e :: _ => hthrow (regErrInternal (store_err_msg e))
                    | [] =>
                        hret {| RStatus := 201;
                                RHeader := header_set "Location" (url_join_path path (BDigest (MBlob mf)))
                                             (header_set "OCI-Subject" (BDigest (MBlob mf))
                                                (header_set "Docker-Content-Digest" (BDigest (MBlob mf)) []));
                                RBody := "" |}
                    end
           end
         else hthrow (regErrInternal "blob handler is not a BlobPutHandler")) w
  end.

(** [handlePut] on a request with path [path], header [Content-Type]
    [ct] and body [body]. *)
Definition handlePut (repo target ct body path : string) : HM Response :=
  blobs <- put_deps repo ct body ;;
  put_store repo target ct body path blobs.

End Handlers.

(** * Claims about the handlers *)

(* ------------------------------------------------------------------ *)
(** ** Request routing: the path predicates and [handle]

    The path handling of [manifest.go]: [strings.Split] of the URL path,
    the route predicates [isManifest], [isTags], [isCatalog],
    [isReferrers], the dispatcher [handle] with its authorization, and the
    path parsing at the top of [handleTags] and [handleReferrers].  Go's
    run-time panic on an out-of-range index or slice is the result [None]. *)

Module Routing.
Import Json GoJson GoLib Registry Store Handlers.

(** [strings.Split(s, "/")]: never empty; [Split("", "/")] is [[""]]. *)
Definition split_slash (s : string) : list string :=
  map string_of_list_ascii (split_on "/"%char (list_ascii_of_string s) []).

(** [strings.Join(elems, "/")]. *)
Definition join_slash (elems : list string) : string := String.concat "/" elems.

(** [elems := strings.Split(req.URL.Path, "/"); elems = elems[1:]]. *)
Definition path_elems (path : string) : list string := tl (split_slash path).

(** [elems[len(elems)-2] == kind], once [len(elems) >= 4] is known. *)
Definition second_last_is (kind : string) (elems : list string) : bool :=
  String.eqb (nth (length elems - 2) elems "") kind.

Definition isManifest (path : string) : bool :=
  let elems := path_elems path in
  if (length elems <? 4)%nat then false else second_last_is "manifests" elems.

Definition isTags (path : string) : bool :=
  let elems := path_elems path in
  if (length elems <? 4)%nat then false else second_last_is "tags" elems.

Definition isCatalog (path : string) : bool :=
  let elems := path_elems path in
  if (length elems <? 2)%nat then false
  else String.eqb (nth (length elems - 1) elems "") "_catalog".

Definition isReferrers (path : string) : bool :=
  let elems := path_elems path in
  if (length elems <? 4)%nat then false else second_last_is "referrers" elems.

(** [target := elem[len(elem)-1]]: panics on an empty [elem]. *)
Definition route_target (path : string) : option string :=
  match path_elems path with
  | [] => None
  | elem => Some (nth (length elem - 1) elem "")
  end.

(** [repo := strings.Join(elem[1:len(elem)-2], "/")]: panics when
    [len(elem) < 3]. *)
Definition route_repo (path : string) : option string :=
  let elem := path_elems path in
  if (length elem <? 3)%nat then None
  else Some (join_slash (firstn (length elem - 3) (skipn 1 elem))).

(** The authorization step shared by the three branches of [handle]. *)
Definition authorized (repo target : string) (a : Action) (k : HM Response) : HM Response :=
  az <- lift (authorize_reference repo target a) ;;
  match az with
  | Some e => hthrow (authz_error e)
  | None => k
  end.

(** [handle] on a request with method [method], URL path [path], header
    [Content-Type] [ct] and body [body]; [None] is a panic. *)
Definition handle (method path ct body : string) (w : World)
    : option ((regError + Response) * World) :=
  match route_target path with
  | None => None
  | Some target =>
      match route_repo path with
      | None => None
      | Some repo =>
          Some ((if String.eqb method "GET" then
                   authorized repo target ActionRead (handleGet repo target path)
                 else if String.eqb method "HEAD" then
                   authorized repo target ActionStat (handleHead repo target)
                 else if String.eqb method "PUT" then
                   authorized repo target ActionWrite (handlePut repo target ct body path)
                 else hthrow regErrMethodUnknown) w)
      end
  end.

(** [handleTags] on a request: the repository is read off the path before
    the method is looked at. *)
Definition handleTagsReq (method path : string) (query : list (string * string)) (w : World)
    : option ((regError + Response) * World) :=
  match route_repo path with
  | None => None
  | Some repo => Some (handleTags method repo query w)
  end.

(** [handleReferrers] on a request: the method is checked before the path
    is read. *)
Definition handleReferrersReq (method path : string) (w : World)
    : option ((regError + Response) * World) :=
  if negb (String.eqb method "GET") then Some (hthrow regErrMethodUnknown w)
  else match route_target path with
       | None => None
       | Some target =>
           match route_repo path with
           | None => None
           | Some repo => Some (handleReferrers method repo target w)
           end
       end.

End Routing.

(* ------------------------------------------------------------------ *)
(** ** Vocabulary for the properties of the handlers *)

Module Props.
Import Json GoJson GoLib Registry Store Handlers Routing.

(** A path segment holds no slash. *)
Definition slash_free (s : string) : bool :=
  forallb (fun c => negb (Ascii.eqb c "/")) (list_ascii_of_string s).

(** The URL path [/<prefix>/<segs...>/<kind>/<target>]. *)
Definition req_path (prefix : string) (segs : list string) (kind target : string) : string :=
  join_slash ("" :: prefix :: segs ++ [kind; target]).

(** The action [handle] authorizes for a method, if it serves it. *)
Definition method_action (method : string) : option Action :=
  if String.eqb method "GET" then Some ActionRead
  else if String.eqb method "HEAD" then Some ActionStat
  else if String.eqb method "PUT" then Some ActionWrite
  else None.

(** The handler [handle] calls for a served method. *)
Definition method_handler (method repo target ct body path : string) : HM Response :=
  if String.eqb method "GET" then handleGet repo target path
  else if String.eqb method "HEAD" then handleHead repo target
  else handlePut repo target ct body path.

(** The [manifest.Blob] recorded for a dependency descriptor. *)
Definition blob_of (d : Descriptor) : Blob := {| BDigest := DDigest d; BSize := DSize d |}.

(** The descriptors of an index that [handlePut] checks and records. *)
Definition needed_dep (d : Descriptor) : bool :=
  IsDistributable (DMediaType d) && (IsIndex (DMediaType d) || IsImage (DMediaType d)).

(** A 200 response whose [Content-Length] is set, last, from its body. *)
Definition length_response (msg : string) (h : header) : Response :=
  {| RStatus := 200; RHeader := header_set "Content-Length" (itoa (Z.of_nat (String.length msg))) h;
     RBody := msg |}.

End Props.

Module Claims.

Import Json GoJson GoLib Registry Store Handlers.

(** The world [w] with the calls [l] appended to its call log. *)
Definition log_ext (w : World) (l : list Call) : World :=
  mkWorld (WManifests w) (WBlobs w) (WRedirect w) (WCanStat w) (WCanPut w) (WQuota w)
          (WAuthz w) (WLog w ++ l).

(** The manifest record [handlePut] builds for a body and content type. *)
Definition put_record (ct body : string) : Manifest :=
  {| ContentType := ct;
     MBlob := {| BDigest := sha256_digest body; BSize := Z.of_nat (String.length body) |} |}.

(** The 201 response of a successful [handlePut]. *)
Definition put_response (path dig : string) : Response :=
  {| RStatus := 201;
     RHeader := header_set "Location" (url_join_path path dig)
                  (header_set "OCI-Subject" dig (header_set "Docker-Content-Digest" dig []));
     RBody := "" |}.

(** Calls that write to the blob store or the manifest store. *)
Definition is_store_write (c : Call) : bool :=
  match c with CBlobPut _ _ _ _ | CManifestPut _ _ _ _ => true | _ => false end.

(** An index entry that must already be recorded in [repo] and is not. *)
Definition submanifest_missing (repo : string) (w : World) (d : Descriptor) : Prop :=
  IsDistributable (DMediaType d) = true /\
  (IsIndex (DMediaType d) || IsImage (DMediaType d)) = true /\
  WManifests w !! (repo, DDigest d) = None.


(** The referrer descriptor the referrers handler produces for the manifest
    recorded under digest [d], if its subject digest is [D]. *)
Definition referrer_of (mans : gmap (string * string) (Manifest * list Blob))
    (blobs : gmap (string * string) string) (repo D d : string) : list RefDescriptor :=
  match mans !! (repo, d) with
  | Some (m, _) =>
      match blobs !! (repo, BDigest (MBlob m)) with
      | Some buf =>
          match subject_of buf with
          | Some s =>
              if String.eqb (get_hash (field "digest" s)) D
              then [{| RMediaType := ContentType m; RSize := Z.of_nat (String.length buf);
                       RDigest := d; RArtifactType := artifact_type_of buf |}]
              else []
          | None => []
          end
      | None => []
      end
  | None => []
  end.

(** Every digest-keyed manifest of [repo] has its body in the blob store. *)
Definition blobs_readable (w : World) (repo : string) : bool :=
  forallb (fun d => match WManifests w !! (repo, d) with
                    | Some (m, _) => match WBlobs w !! (repo, BDigest (MBlob m)) with
                                     | Some _ => true | None => false end
                    | None => true
                    end)
          (List.filter is_digest (repo_refs repo w)).

(** Concrete inputs used by the witnesses and counterexamples below. *)
Definition HX : string :=
  "sha256:aaaaaaaaaaaaaaaaaaaaaaaaaaaaaaaaaaaaaaaaaaaaaaaaaaaaaaaaaaaaaaaa".

Definition w_empty : World :=
  mkWorld ∅ ∅ (fun _ _ => None) true true 100 (fun _ _ _ => None) [].

Definition w_redirect : World :=
  mkWorld ∅ ∅ (fun _ _ => Some ("https://cdn.example/blob"%string, 307)) true true 100
          (fun _ _ _ => None) [].

Definition image_body : string :=
  jq ("{'schemaVersion':2,'config':{'mediaType':'x','size':2,'digest':'" ++ HX ++
      "'},'layers':[]}").

Definition child_desc : Descriptor :=
  {| DMediaType := OCIManifestSchema1; DSize := 3; DDigest := HX |}.

Definition index_body : string :=
  jq ("{'schemaVersion':2,'manifests':[{'mediaType':'" ++ OCIManifestSchema1 ++
      "','size':3,'digest':'" ++ HX ++ "'}]}").

Definition w_head : World :=
  mkWorld {[("acme/app"%string, "v1"%string) := (put_record OCIManifestSchema1 image_body, [])]}
          ∅ (fun _ _ => None) true true 100 (fun _ _ _ => None) [].

Definition referrer_body : string :=
  jq ("{'subject':{'digest':'" ++ HX ++
      "'},'config':{'mediaType':'application/vnd.example.sbom','mediaType':7}}").

Definition w_referrer : World :=
  snd (handlePut "acme/app" "v1" "application/vnd.example+json" referrer_body
                 "/v2/acme/app/manifests/v1" w_empty).

Lemma put_store_success repo target ct body path blobs w r :
  fst (put_store repo target ct body path blobs w) = inr r ->
  r = put_response path (sha256_digest body) /\
  WManifests (snd (put_store repo target ct body path blobs w))
    = <[(repo, target) := (put_record ct body, blobs)]>
        (<[(repo, sha256_digest body) := (put_record ct body, blobs)]> (WManifests w)) /\
  WBlobs (snd (put_store repo target ct body path blobs w))
    = <[(repo, sha256_digest body) := body]> (WBlobs w) /\
  WRedirect (snd (put_store repo target ct body path blobs w)) = WRedirect w.
Proof.
  intros H. unfold put_store in *. destruct (checkIncompatibleManifest body); [discriminate|].
  destruct (WCanPut w) eqn:Hc; [|discriminate].
  unfold hbind, lift, blob_put, run_tx, manifest_put in *; simpl in *.
  repeat (case_match; simplify_eq/=); try discriminate.
  all: split_and!; reflexivity.
Qed.

Lemma log_ext_nil w : log_ext w [] = w.
Proof. destruct w; unfold log_ext; simpl; rewrite app_nil_r; reflexivity. Qed.

Lemma add_log_ext c w : add_log c w = log_ext w [c].
Proof. reflexivity. Qed.

Lemma log_ext_app w l1 l2 : log_ext (log_ext w l1) l2 = log_ext w (l1 ++ l2).
Proof. destruct w; unfold log_ext; simpl; rewrite app_assoc; reflexivity. Qed.

Lemma repo_known_lookup repo r w x :
  WManifests w !! (repo, r) = Some x -> repo_known repo w = true.
Proof.
  intros H. apply elem_of_map_to_list, list_elem_of_In in H.
  unfold repo_known, repo_refs.
  destruct (List.filter _ _) eqn:E; [|reflexivity].
  assert (Hin : In ((repo, r), x)
            (List.filter (fun kv => String.eqb (fst (fst kv)) repo) (map_to_list (WManifests w)))).
  { apply filter_In. split; [exact H|]. apply String.eqb_refl. }
  rewrite E in Hin. destruct Hin.
Qed.

Lemma manifest_get_found repo r w m deps :
  WManifests w !! (repo, r) = Some (m, deps) ->
  manifest_get repo r w = (inr m, log_ext w [CManifestGet repo r]).
Proof.
  intros H. unfold manifest_get. rewrite (repo_known_lookup _ _ _ _ H), H. reflexivity.
Qed.

Lemma manifest_get_failed repo r w e :
  fst (manifest_get repo r w) = inl e -> WManifests w !! (repo, r) = None.
Proof.
  unfold manifest_get; simpl. destruct (WManifests w !! (repo, r)) as [[m d]|] eqn:E; [|reflexivity].
  rewrite (repo_known_lookup _ _ _ _ E). discriminate.
Qed.

Lemma manifest_get_missing repo r w :
  WManifests w !! (repo, r) = None -> exists e, fst (manifest_get repo r w) = inl e.
Proof.
  intros H. unfold manifest_get; simpl. rewrite H. destruct (repo_known repo w); eauto.
Qed.

Lemma index_deps_log repo ds blobs w :
  exists l, snd (index_deps repo ds blobs w) = log_ext w l
            /\ Forall (fun c => is_store_write c = false) l.
Proof.
  revert blobs w. induction ds as [|d ds IH]; intros blobs w; simpl.
  - exists []. split; [symmetry; apply log_ext_nil | constructor].
  - destruct (negb (IsDistributable (DMediaType d))); [apply IH|].
    destruct (IsIndex (DMediaType d) || IsImage (DMediaType d)); [|apply IH].
    unfold hbind, lift, manifest_get at 1; simpl.
    destruct (if repo_known repo w then _ else _) as [e|m].
    + exists [CManifestGet repo (DDigest d)]. split; [reflexivity | repeat constructor].
    + destruct (IH (blobs ++ [{| BDigest := DDigest d; BSize := DSize d |}])
                   (log_ext w [CManifestGet repo (DDigest d)])) as [l [Hl Hf]].
      exists (CManifestGet repo (DDigest d) :: l). split.
      * unfold add_log. fold (log_ext w [CManifestGet repo (DDigest d)]).
        rewrite Hl, log_ext_app. reflexivity.
      * constructor; [reflexivity | exact Hf].
Qed.

Lemma put_deps_log repo ct body w :
  exists l, snd (put_deps repo ct body w) = log_ext w l
            /\ Forall (fun c => is_store_write c = false) l.
Proof.
  unfold put_deps. destruct (IsIndex ct).
  - destruct (ParseIndexManifest body); [apply index_deps_log|].
    exists []. split; [symmetry; apply log_ext_nil | constructor].
  - exists []. split; [|constructor]. rewrite log_ext_nil.
    destruct (IsImage ct); [destruct (ParseManifest body) as [[[? ?] ?]|]|]; reflexivity.
Qed.

Lemma handlePut_success repo target ct body path w r :
  fst (handlePut repo target ct body path w) = inr r ->
  r = put_response path (sha256_digest body) /\
  exists blobs,
    WManifests (snd (handlePut repo target ct body path w))
      = <[(repo, target) := (put_record ct body, blobs)]>
          (<[(repo, sha256_digest body) := (put_record ct body, blobs)]> (WManifests w)) /\
    WBlobs (snd (handlePut repo target ct body path w))
      = <[(repo, sha256_digest body) := body]> (WBlobs w) /\
    WRedirect (snd (handlePut repo target ct body path w)) = WRedirect w.
Proof.
  unfold handlePut, hbind.
  destruct (put_deps_log repo ct body w) as [l [Hl _]].
  destruct (put_deps repo ct body w) as [[e|blobs] w1] eqn:E; [discriminate|].
  simpl in Hl. subst w1. intros H.
  destruct (put_store_success _ _ _ _ _ _ _ _ H) as (Hr & Hm & Hb & Hd).
  split; [exact Hr|]. exists blobs. rewrite Hm, Hb, Hd. split_and!; reflexivity.
Qed.

(** Claim C1: a successful PUT of body [B] records the manifest under both
    [sha256(B)] and the target (the digest key first, the target key second,
    inside one [run_tx]) and stores [B] in the blob store; a later GET by
    either key then returns 200 with body [B] and
    [Docker-Content-Digest = sha256(B)] when the blob backend serves the bytes,
    and, when the backend answers with a redirect directive (an HTTP status
    [code] and a location), the response [http.Redirect] writes for that
    GET: status [code], [Location] the location resolved against the
    request path, Content-Type text/html and a short HTML link body. *)
Theorem put_then_get_same_blob repo target ct body path w r :
  fst (handlePut repo target ct body path w) = inr r ->
  let w' := snd (handlePut repo target ct body path w) in
  (exists deps,
     WManifests w' = <[(repo, target) := (put_record ct body, deps)]>
                       (<[(repo, sha256_digest body) := (put_record ct body, deps)]> (WManifests w))) /\
  WBlobs w' !! (repo, sha256_digest body) = Some body /\
  forall ref gpath, ref = target \/ ref = sha256_digest body ->
    (WRedirect w repo (sha256_digest body) = None ->
       exists g, fst (handleGet repo ref gpath w') = inr g /\ RStatus g = 200 /\ RBody g = body /\
                 header_get (RHeader g) "Docker-Content-Digest" = sha256_digest body) /\
    (forall loc code, WRedirect w repo (sha256_digest body) = Some (loc, code) ->
       100 <= code <= 999 ->
       exists g, fst (handleGet repo ref gpath w') = inr g /\
                 g = redirect_response "GET" gpath loc code /\ RStatus g = code /\
                 header_get (RHeader g) "Location" = hex_escape_non_ascii (redirect_url gpath loc) /\
                 header_get (RHeader g) "Content-Type" = "text/html; charset=utf-8").
Proof.
  intros H w'. destruct (handlePut_success _ _ _ _ _ _ _ H) as [_ [deps (Hm & Hb & Hd)]].
  fold w' in Hm, Hb, Hd.
  assert (Hb' : WBlobs w' !! (repo, sha256_digest body) = Some body)
    by (rewrite Hb; apply lookup_insert_eq).
  split; [exists deps; exact Hm|]. split; [exact Hb'|].
  intros ref gpath Href.
  assert (Hl : WManifests w' !! (repo, ref) = Some (put_record ct body, deps)).
  { rewrite Hm. destruct Href as [->| ->]; [apply lookup_insert_eq|].
    destruct (decide (target = sha256_digest body)) as [<-|Hne]; [apply lookup_insert_eq|].
    rewrite lookup_insert_ne by congruence. apply lookup_insert_eq. }
  unfold handleGet, hbind, lift. rewrite (manifest_get_found _ _ _ _ _ Hl).
  unfold blob_get, audit_pull; simpl. rewrite Hd.
  split.
  - intros Hn. rewrite Hn. simpl. rewrite Hb'. simpl.
    eexists; split_and!; reflexivity.
  - intros loc code Hs Hc. rewrite Hs.
    replace ((100 <=? code) && (code <=? 999)) with true
      by (symmetry; apply andb_true_intro; split; apply Z.leb_le; lia).
    eexists; split_and!; reflexivity.
Qed.

(** Claim C6: every successful PUT answers 201 with [Docker-Content-Digest]
    and [OCI-Subject] both equal to the SHA-256 digest of the body, and
    [Location] equal to the request path joined with that digest. *)
Theorem put_success_response repo target ct body path w r :
  fst (handlePut repo target ct body path w) = inr r ->
  RStatus r = 201 /\
  header_get (RHeader r) "Docker-Content-Digest" = sha256_digest body /\
  header_get (RHeader r) "OCI-Subject" = sha256_digest body /\
  header_get (RHeader r) "Location" = url_join_path path (sha256_digest body).
Proof.
  intros H. destruct (handlePut_success _ _ _ _ _ _ _ H) as [-> _].
  split_and!; reflexivity.
Qed.

(** Claim C9: when the manifest record exists but the blob store's Get fails
    with an error that is not a redirect directive, GET answers
    MANIFEST_UNKNOWN (404), not INTERNAL. *)
Theorem get_blob_error_manifest_unknown repo target path w m deps e :
  WManifests w !! (repo, target) = Some (m, deps) ->
  fst (blob_get repo (BDigest (MBlob m)) true w) = BError e ->
  exists err, fst (handleGet repo target path w) = inl err /\
              Code err = "MANIFEST_UNKNOWN" /\ Status err = 404.
Proof.
  intros Hm Hb. unfold handleGet, hbind, lift. rewrite (manifest_get_found _ _ _ _ _ Hm).
  change (fst (blob_get repo (BDigest (MBlob m)) true (log_ext w [CManifestGet repo target]))
          = BError e) in Hb.
  destruct (blob_get repo (BDigest (MBlob m)) true (log_ext w [CManifestGet repo target])) eqn:E.
  simpl in Hb. subst. simpl. eexists; split_and!; reflexivity.
Qed.

(** Claim C10: for a content type that is neither an index nor an image
    media type, a body that is not JSON is rejected by the non-compliance
    check with MANIFEST_INVALID (400), and the world is left unchanged. *)
Theorem put_unparsable_body_rejected repo target ct body path w :
  IsIndex ct = false -> IsImage ct = false -> Json.parse body = None ->
  exists err, handlePut repo target ct body path w = (inl err, w) /\
              Code err = "MANIFEST_INVALID" /\ Status err = 400.
Proof.
  intros Hi Hm Hp. unfold handlePut, hbind, put_deps. rewrite Hi, Hm. simpl.
  unfold put_store, checkIncompatibleManifest, unmarshal. rewrite Hp. simpl.
  eexists; split_and!; reflexivity.
Qed.

(** Claim C3: when the manifest record exists, HEAD answers INTERNAL (500)
    only if the blob backend has no Stat capability; when Stat exists and
    fails, HEAD answers MANIFEST_UNKNOWN (404). *)
Theorem head_stat_errors repo target w m deps :
  WManifests w !! (repo, target) = Some (m, deps) ->
  (WCanStat w = false ->
     exists err, fst (handleHead repo target w) = inl err /\ Code err = "INTERNAL" /\ Status err = 500) /\
  (forall e, WCanStat w = true -> fst (blob_stat repo (BDigest (MBlob m)) w) = inl e ->
     exists err, fst (handleHead repo target w) = inl err /\
                 Code err = "MANIFEST_UNKNOWN" /\ Status err = 404).
Proof.
  intros Hm. unfold handleHead, hbind, lift. rewrite (manifest_get_found _ _ _ _ _ Hm). simpl.
  split.
  - intros Hs. rewrite Hs. eexists; split_and!; reflexivity.
  - intros e Hs Hb. rewrite Hs. unfold blob_stat in *; simpl in *.
    destruct (WBlobs w !! (repo, BDigest (MBlob m))); [discriminate|].
    eexists; split_and!; reflexivity.
Qed.

Lemma parse_uint10_range n s un :
  parse_uint10 n s = (un, Some ErrRange) -> un = MaxUint64.
Proof.
  revert n. induction s as [|c s IH]; intros n; simpl; [discriminate|].
  destruct (Json.is_digit c); [|discriminate].
  destruct (MaxUint64 / 10 + 1 <=? n); [congruence|].
  destruct (MaxUint64 <? n * 10 + (Z.of_nat (nat_of_ascii c) - 48)); [congruence|].
  apply IH.
Qed.

Lemma atoi_error_value s :
  (snd (atoi s) = Some ErrSyntax -> fst (atoi s) = 0) /\
  (snd (atoi s) = Some ErrRange -> fst (atoi s) = 2 ^ 63 - 1 \/ fst (atoi s) = - 2 ^ 63).
Proof.
  unfold atoi.
  destruct (match list_ascii_of_string s with
            | "-"%char :: r => (true, r) | "+"%char :: r => (false, r)
            | _ => (false, list_ascii_of_string s) end) as [neg ds].
  destruct (_ && _).
  - destruct ds; [simpl; split; [reflexivity | discriminate]|].
    destruct (digits_value 0 _); simpl; split; (reflexivity || discriminate).
  - destruct (list_ascii_of_string s); [simpl; split; [reflexivity | discriminate]|].
    destruct ds; [simpl; split; [reflexivity | discriminate]|].
    destruct (parse_uint10 0 _) as [un [[|]|]] eqn:E.
    + simpl; split; [reflexivity | discriminate].
    + apply parse_uint10_range in E. subst un.
      destruct neg; simpl; split; try discriminate; auto.
    + destruct (negb neg && _); [simpl; split; [discriminate | auto]|].
      destruct (neg && _); simpl; split; try discriminate; auto.
Qed.

(** Claim C8: GET /v2/_catalog always succeeds and calls List exactly once:
    with 10000 when [n] is absent, with the parsed value when it parses,
    with 0 on a syntax error, and with the value [strconv.Atoi] returns on a
    range error (the clamped bound [2^63-1] or [-2^63]), not with 0. *)
Theorem catalog_n_value q w :
  exists r n,
    handleCatalog "GET" q w = (inr r, log_ext w [CList n]) /\
    (qget q "n" = ""%string -> n = 10000) /\
    (qget q "n" <> ""%string -> snd (atoi (qget q "n")) = None -> n = fst (atoi (qget q "n"))) /\
    (qget q "n" <> ""%string -> snd (atoi (qget q "n")) = Some ErrSyntax -> n = 0) /\
    (qget q "n" <> ""%string -> snd (atoi (qget q "n")) = Some ErrRange ->
       n = 2 ^ 63 - 1 \/ n = - 2 ^ 63).
Proof.
  destruct (atoi_error_value (qget q "n")) as [Hs Hr].
  unfold handleCatalog, hbind, lift, list_repos. simpl.
  destruct (String.eqb (qget q "n") "") eqn:E.
  - apply String.eqb_eq in E. eexists; exists 10000. split_and!; [reflexivity | auto | congruence..].
  - apply String.eqb_neq in E. eexists; exists (fst (atoi (qget q "n"))).
    split_and!; [reflexivity | congruence | auto | auto | auto].
Qed.

(** Claim C7: for an authorized tags list request, an [n] that is present
    but does not parse yields BAD_REQUEST (400) without a store call;
    otherwise ListTags is called once with [n] (10000 when absent) and
    [last]; when it succeeds the response is 200 with the JSON body
    [{"name": repo, "tags": [...]}] and its Content-Length, and for an
    unknown repository the handler answers NAME_UNKNOWN instead. *)
Theorem tags_list_cases repo q w :
  WAuthz w repo None ActionRead = None ->
  let ns := qget q "n" in
  let last := qget q "last" in
  let n := if String.eqb ns "" then 10000 else fst (atoi ns) in
  (ns <> ""%string -> snd (atoi ns) <> None ->
     exists err, handleTags "GET" repo q w = (inl err, log_ext w [CAuthorize repo ActionRead]) /\
                 Code err = "BAD_REQUEST" /\ Status err = 400) /\
  (ns = ""%string \/ snd (atoi ns) = None ->
     snd (handleTags "GET" repo q w)
       = log_ext w [CAuthorize repo ActionRead; CListTags repo n last] /\
     (forall tags, fst (list_tags repo n last w) = inr tags ->
        let msg := marshal_list_tags repo tags in
        fst (handleTags "GET" repo q w)
          = inr {| RStatus := 200;
                   RHeader := header_set "Content-Length" (itoa (Z.of_nat (String.length msg))) [];
                   RBody := msg |}) /\
     (repo_known repo w = false -> fst (handleTags "GET" repo q w) = inl regErrNameUnknown)).
Proof.
  intros Ha ns last n. unfold handleTags, hbind, lift, authorize. simpl. rewrite Ha.
  fold ns last.
  split.
  - intros Hne He. apply String.eqb_neq in Hne. rewrite Hne.
    destruct (atoi ns) as [v [e|]]; [|simpl in He; congruence].
    eexists; split_and!; reflexivity.
  - intros Hok.
    assert (Hn : (if String.eqb ns "" then inr 10000
                  else match atoi ns with (_, Some e) => inl e | (parsed, None) => inr parsed end)
                 = @inr NumError Z n).
    { unfold n. destruct (String.eqb ns "") eqn:E; [reflexivity|].
      apply String.eqb_neq in E. destruct Hok as [Hok|Hok]; [congruence|].
      destruct (atoi ns) as [v e]. simpl in Hok. subst e. reflexivity. }
    rewrite Hn. unfold list_tags.
    change (repo_known repo (add_log (CAuthorize repo ActionRead) w)) with (repo_known repo w).
    destruct (repo_known repo w) eqn:K; simpl; split_and!.
    + rewrite !add_log_ext, log_ext_app. reflexivity.
    + intros tags Ht. injection Ht as <-. reflexivity.
    + discriminate.
    + rewrite !add_log_ext, log_ext_app. reflexivity.
    + discriminate.
    + reflexivity.
Qed.

Lemma index_deps_missing repo ds blobs w d :
  In d ds -> submanifest_missing repo w d ->
  exists d', In d' ds /\ submanifest_missing repo w d' /\
    fst (index_deps repo ds blobs w)
      = inl {| Status := 404; Code := "MANIFEST_UNKNOWN";
               Message := ("Sub-manifest " ++ dq (DDigest d') ++ " not found")%string |}.
Proof.
  revert blobs w. induction ds as [|d0 ds IH]; intros blobs w Hin Hd; [destruct Hin|].
  assert (Hrest : In d ds -> exists d', In d' (d0 :: ds) /\ submanifest_missing repo w d' /\
                    fst (index_deps repo ds blobs w) = inl {| Status := 404; Code := "MANIFEST_UNKNOWN";
                      Message := ("Sub-manifest " ++ dq (DDigest d') ++ " not found")%string |}).
  { intros H. destruct (IH blobs w H Hd) as (d' & ? & ? & ?). exists d'. split_and!; auto; right; auto. }
  destruct Hd as (Hd1 & Hd2 & Hd3). simpl.
  destruct (IsDistributable (DMediaType d0)) eqn:E1; simpl.
  2:{ destruct Hin as [<-|Hin]; [congruence|]. apply Hrest, Hin. }
  destruct (IsIndex (DMediaType d0) || IsImage (DMediaType d0)) eqn:E2.
  2:{ destruct Hin as [<-|Hin]; [congruence|]. apply Hrest, Hin. }
  unfold hbind, lift.
  destruct (manifest_get repo (DDigest d0) w) as [[e|m] w1] eqn:Eg.
  - exists d0. split; [left; reflexivity|]. split; [|reflexivity].
    split_and!; [exact E1 | exact E2 |].
    apply (manifest_get_failed _ _ _ e). rewrite Eg. reflexivity.
  - assert (Hin' : In d ds).
    { destruct Hin as [Heq|Hin]; [subst d|exact Hin].
      destruct (manifest_get_missing repo (DDigest d0) w Hd3) as [e He]. rewrite Eg in He. discriminate. }
    unfold manifest_get in Eg. injection Eg as _ <-.
    destruct (IH (blobs ++ [{| BDigest := DDigest d0; BSize := DSize d0 |}])
                 (log_ext w [CManifestGet repo (DDigest d0)]) Hin')
      as (d' & Hin'' & Hm & Hr); [split_and!; assumption|].
    exists d'. split_and!; [right; exact Hin'' | exact Hm | exact Hr].
Qed.

(** Claim C2: a PUT with an index content type whose index names a
    distributable image or index descriptor that is not recorded in the
    repository fails with MANIFEST_UNKNOWN (404) naming a missing digest,
    and no blob store Put and no manifest store Put is issued. *)
Theorem index_put_missing_submanifest repo target ct body path w ds d :
  IsIndex ct = true -> ParseIndexManifest body = Some ds ->
  In d ds -> submanifest_missing repo w d ->
  (exists d', In d' ds /\ submanifest_missing repo w d' /\
     fst (handlePut repo target ct body path w)
       = inl {| Status := 404; Code := "MANIFEST_UNKNOWN";
                Message := ("Sub-manifest " ++ dq (DDigest d') ++ " not found")%string |}) /\
  exists l, snd (handlePut repo target ct body path w) = log_ext w l /\
            Forall (fun c => is_store_write c = false) l.
Proof.
  intros Hi Hp Hin Hd.
  destruct (index_deps_missing repo ds [] w d Hin Hd) as (d' & Hin' & Hd' & Hr).
  destruct (index_deps_log repo ds [] w) as (l & Hl & Hf).
  unfold handlePut, hbind, put_deps. rewrite Hi, Hp.
  destruct (index_deps repo ds [] w) as [[e|b] w1]; simpl in Hr, Hl; [|discriminate].
  injection Hr as ->.
  split; [exists d'; split_and!; [exact Hin' | exact Hd' | reflexivity] | exists l; split; assumption].
Qed.








Lemma index_deps_error repo ds blobs w e :
  fst (index_deps repo ds blobs w) = inl e -> Code e = "MANIFEST_UNKNOWN" /\ Status e = 404.
Proof.
  revert blobs w. induction ds as [|d ds IH]; intros blobs w; simpl; [discriminate|].
  destruct (negb _); [apply IH|].
  destruct (_ || _); [|apply IH].
  unfold hbind, lift. destruct (manifest_get repo (DDigest d) w) as [[e'|m] w1].
  - intros H. injection H as <-. split; reflexivity.
  - apply IH.
Qed.

Lemma put_deps_error repo ct body w e :
  fst (put_deps repo ct body w) = inl e ->
  (Code e = "MANIFEST_INVALID" /\ Status e = 400) \/
  (IsIndex ct = true /\ Code e = "MANIFEST_UNKNOWN" /\ Status e = 404).
Proof.
  unfold put_deps. destruct (IsIndex ct) eqn:Ei.
  - destruct (ParseIndexManifest body).
    + intros H. right. split; [reflexivity | exact (index_deps_error _ _ _ _ _ H)].
    + intros H. injection H as <-. left. split; reflexivity.
  - destruct (IsImage ct); [destruct (ParseManifest body) as [[[? ?] ?]|]|]; simpl;
      intros H; try discriminate; injection H as <-; left; split; reflexivity.
Qed.


Lemma repo_refs_lookup repo w d :
  In d (repo_refs repo w) -> exists x, WManifests w !! (repo, d) = Some x.
Proof.
  unfold repo_refs. intros H. apply in_map_iff in H as [[[r d'] x] [Hs Hin]]. simpl in Hs. subst d'.
  apply filter_In in Hin as [Hin Hr]. simpl in Hr. apply String.eqb_eq in Hr. subst r.
  exists x. apply elem_of_map_to_list, list_elem_of_In. exact Hin.
Qed.

Lemma blob_get_bytes repo dig w buf :
  WBlobs w !! (repo, dig) = Some buf ->
  blob_get repo dig false w = (BBytes buf, log_ext w [CBlobGet repo dig false]).
Proof. intros H. unfold blob_get. rewrite H. reflexivity. Qed.

Lemma referrers_loop_ok repo D ds acc w :
  (forall d, In d ds -> exists m deps buf, WManifests w !! (repo, d) = Some (m, deps) /\
                                       WBlobs w !! (repo, BDigest (MBlob m)) = Some buf) ->
  exists l, referrers_loop repo D ds acc w
            = (inr (acc ++ flat_map (referrer_of (WManifests w) (WBlobs w) repo D) ds), log_ext w l).
Proof.
  revert acc w. induction ds as [|d ds IH]; intros acc w H.
  - exists []. simpl. rewrite app_nil_r, log_ext_nil. reflexivity.
  - destruct (H d (or_introl eq_refl)) as (m & deps & buf & Hm & Hb).
    simpl. unfold hbind, lift. rewrite (manifest_get_found _ _ _ _ _ Hm).
    cbv beta iota.
    rewrite (blob_get_bytes repo (BDigest (MBlob m)) (log_ext w [CManifestGet repo d]) buf Hb).
    cbv beta iota. rewrite log_ext_app.
    unfold referrer_of at 1. rewrite Hm, Hb.
    destruct (subject_of buf) as [s|];
      [destruct (String.eqb (get_hash (field "digest" s)) D); cbv beta iota delta [negb]|];
      (match goal with
       | |- context [referrers_loop repo D ds ?a ?ww] =>
           destruct (IH a ww) as [l Hl]; [intros d' Hd'; exact (H d' (or_intror Hd'))|]
       end);
      rewrite Hl; eexists; rewrite log_ext_app; [rewrite <- app_assoc | rewrite app_nil_l..];
      reflexivity.
Qed.

Lemma referrer_of_shape M B repo D d :
  referrer_of M B repo D d = [] \/ exists x, referrer_of M B repo D d = [x] /\ RDigest x = d.
Proof.
  unfold referrer_of. repeat case_match; auto. right. eexists; split; reflexivity.
Qed.

Lemma nodup_referrers (f : string -> list RefDescriptor) ds :
  (forall d, f d = [] \/ exists x, f d = [x] /\ RDigest x = d) ->
  NoDup ds -> NoDup (map RDigest (flat_map f ds)).
Proof.
  intros Hf. induction ds as [|d ds IH]; intros Hn; simpl; [constructor|].
  apply NoDup_cons_iff in Hn as [Hnin Hn].
  destruct (Hf d) as [->|[x [-> Hx]]]; simpl; [apply IH, Hn|].
  constructor; [|apply IH, Hn].
  intros Hin. apply in_map_iff in Hin as [y [Hy Hin]]. apply in_flat_map in Hin as [d' [Hd' Hin]].
  destruct (Hf d') as [E|[z [E Hz]]]; rewrite E in Hin; [destruct Hin|].
  destruct Hin as [<-|[]]. apply Hnin. congruence.
Qed.

Lemma fmap_fst_map {A B} (l : list (A * B)) : l.*1 = map fst l.
Proof. induction l as [|x l IH]; [reflexivity|]. simpl. f_equal. Qed.

Lemma nodup_refs_of {X} (L : list ((string * string) * X)) repo :
  NoDup (map fst L) ->
  NoDup (map (fun kv => snd (fst kv)) (List.filter (fun kv => String.eqb (fst (fst kv)) repo) L)).
Proof.
  induction L as [|[[r d] x] L IH]; intros Hn; simpl; [constructor|].
  apply NoDup_cons_iff in Hn as [Hnin Hn].
  destruct (String.eqb r repo) eqn:Er; simpl; [|apply IH, Hn].
  constructor; [|apply IH, Hn].
  intros Hin. apply in_map_iff in Hin as [[[r' d'] x'] [Hd Hin]]. simpl in Hd. subst d'.
  apply filter_In in Hin as [Hin Hr']. simpl in Hr'.
  apply String.eqb_eq in Er, Hr'. subst r r'.
  apply Hnin. apply in_map_iff. exists ((repo, d), x'). split; [reflexivity | exact Hin].
Qed.

Lemma nodup_repo_refs repo w : NoDup (repo_refs repo w).
Proof.
  unfold repo_refs. apply nodup_refs_of.
  rewrite <- fmap_fst_map. apply NoDup_ListNoDup, NoDup_fst_map_to_list.
Qed.

(** Claim C4: for an authorized GET of the referrers of a digest [D] in a
    known repository whose manifest bodies are all readable, the response is
    200 with an OCI image index holding one descriptor per digest-keyed
    manifest whose subject digest is [D] (media type, body size, digest, and
    the artifact type read from [config.mediaType]), with no digest twice. *)
Theorem referrers_index repo D w :
  WAuthz w repo (Some D) ActionRead = None ->
  is_digest D = true ->
  repo_known repo w = true ->
  blobs_readable w repo = true ->
  let ms := flat_map (referrer_of (WManifests w) (WBlobs w) repo D)
                     (List.filter is_digest (repo_refs repo w)) in
  let msg := marshal_index 2 OCIImageIndex ms in
  fst (handleReferrers "GET" repo D w)
    = inr {| RStatus := 200;
             RHeader := header_set "Content-Type" OCIImageIndex
                          (header_set "Content-Length" (itoa (Z.of_nat (String.length msg))) []);
             RBody := msg |} /\
  NoDup (map RDigest ms).
Proof.
  intros Ha Hd Hk Hr ms msg. split.
  - unfold handleReferrers, hbind, lift, authorize_reference. rewrite String.eqb_refl.
    cbv beta iota delta [negb].
    rewrite Ha. unfold is_digest in Hd. destruct (parse_hash D); [|discriminate].
    unfold list_digests.
    change (repo_known repo (add_log (CAuthorizeReference repo D ActionRead) w))
      with (repo_known repo w).
    rewrite Hk. cbv iota beta.
    destruct (referrers_loop_ok repo D (List.filter is_digest (repo_refs repo w)) []
                (add_log (CListDigests repo) (add_log (CAuthorizeReference repo D ActionRead) w)))
      as [l Hl].
    { intros d Hin. pose proof Hin as Hin0. apply filter_In in Hin as [Hin _].
      destruct (repo_refs_lookup _ _ _ Hin) as [[m deps] Hm]. exists m, deps.
      unfold blobs_readable in Hr. rewrite forallb_forall in Hr.
      specialize (Hr d Hin0). rewrite Hm in Hr.
      destruct (WBlobs w !! (repo, BDigest (MBlob m))) as [buf|] eqn:Hb; [|discriminate].
      exists buf. split; assumption. }
    change (repo_refs repo (add_log (CAuthorizeReference repo D ActionRead) w)) with (repo_refs repo w).
    rewrite Hl. reflexivity.
  - apply nodup_referrers; [intros; apply referrer_of_shape|].
    apply NoDup_filter, nodup_repo_refs.
Qed.

(** ** Witnesses: each claim theorem with hypotheses, applied at concrete inputs *)

Lemma put_then_get_same_blob_witness :
  fst (handlePut "acme/app" "v1" OCIManifestSchema1 image_body "/v2/acme/app/manifests/v1" w_empty)
    = inr (put_response "/v2/acme/app/manifests/v1" (sha256_digest image_body)) /\
  (exists g, fst (handleGet "acme/app" "v1" "/v2/acme/app/manifests/v1"
                   (snd (handlePut "acme/app" "v1" OCIManifestSchema1 image_body
                                   "/v2/acme/app/manifests/v1" w_empty))) = inr g /\
            RStatus g = 200 /\ RBody g = image_body /\
            header_get (RHeader g) "Docker-Content-Digest" = sha256_digest image_body) /\
  fst (handlePut "acme/app" "v1" OCIManifestSchema1 image_body "/v2/acme/app/manifests/v1" w_redirect)
    = inr (put_response "/v2/acme/app/manifests/v1" (sha256_digest image_body)) /\
  exists g, fst (handleGet "acme/app" (sha256_digest image_body) "/v2/acme/app/manifests/v1"
                   (snd (handlePut "acme/app" "v1" OCIManifestSchema1 image_body
                                   "/v2/acme/app/manifests/v1" w_redirect))) = inr g /\
            RStatus g = 307 /\
            header_get (RHeader g) "Location" = "https://cdn.example/blob" /\
            header_get (RHeader g) "Content-Type" = "text/html; charset=utf-8".
Proof.
  assert (H : fst (handlePut "acme/app" "v1" OCIManifestSchema1 image_body
                             "/v2/acme/app/manifests/v1" w_empty)
              = inr (put_response "/v2/acme/app/manifests/v1" (sha256_digest image_body)))
    by (vm_compute; reflexivity).
  assert (H' : fst (handlePut "acme/app" "v1" OCIManifestSchema1 image_body
                              "/v2/acme/app/manifests/v1" w_redirect)
               = inr (put_response "/v2/acme/app/manifests/v1" (sha256_digest image_body)))
    by (vm_compute; reflexivity).
  split; [exact H |].
  pose proof (put_then_get_same_blob _ _ _ _ _ _ _ H) as T.
  cbv zeta in T.
  destruct T as [_ [_ T]].
  destruct (T "v1"%string "/v2/acme/app/manifests/v1"%string (or_introl eq_refl)) as [T1 _].
  split; [apply T1; vm_compute; reflexivity |].
  split; [exact H' |].
  pose proof (put_then_get_same_blob _ _ _ _ _ _ _ H') as T'.
  cbv zeta in T'.
  destruct T' as [_ [_ T']].
  destruct (T' (sha256_digest image_body) "/v2/acme/app/manifests/v1"%string (or_intror eq_refl))
    as [_ T2].
  destruct (T2 "https://cdn.example/blob"%string 307 ltac:(vm_compute; reflexivity) ltac:(lia))
    as (g & G & _ & S & L & C).
  exists g. split_and!; [exact G | exact S | rewrite L; vm_compute; reflexivity | exact C].
Defined.

Lemma put_success_response_witness :
  exists r, fst (handlePut "acme/app" "v1" OCIManifestSchema1 image_body
                           "/v2/acme/app/manifests/v1" w_empty) = inr r /\
            RStatus r = 201 /\
            header_get (RHeader r) "Location"
              = url_join_path "/v2/acme/app/manifests/v1" (sha256_digest image_body).
Proof.
  assert (H : fst (handlePut "acme/app" "v1" OCIManifestSchema1 image_body
                             "/v2/acme/app/manifests/v1" w_empty)
              = inr (put_response "/v2/acme/app/manifests/v1" (sha256_digest image_body)))
    by (vm_compute; reflexivity).
  exists (put_response "/v2/acme/app/manifests/v1" (sha256_digest image_body)).
  destruct (put_success_response _ _ _ _ _ _ _ H) as [A [_ [_ B]]].
  split; [exact H | split; [exact A | exact B]].
Defined.

Lemma get_blob_error_manifest_unknown_witness :
  WManifests w_head !! ("acme/app"%string, "v1"%string)
    = Some (put_record OCIManifestSchema1 image_body, []) /\
  fst (blob_get "acme/app" (sha256_digest image_body) true w_head) = BError ErrBlobUnknown /\
  exists err, fst (handleGet "acme/app" "v1" "/v2/acme/app/manifests/v1" w_head) = inl err /\
              Code err = "MANIFEST_UNKNOWN" /\ Status err = 404.
Proof.
  assert (H1 : WManifests w_head !! ("acme/app"%string, "v1"%string)
                 = Some (put_record OCIManifestSchema1 image_body, []))
    by (vm_compute; reflexivity).
  assert (H2 : fst (blob_get "acme/app" (BDigest (MBlob (put_record OCIManifestSchema1 image_body)))
                             true w_head) = BError ErrBlobUnknown)
    by (vm_compute; reflexivity).
  exact (conj H1 (conj H2 (get_blob_error_manifest_unknown _ _ "/v2/acme/app/manifests/v1" _ _ _ _ H1 H2))).
Defined.

Lemma put_unparsable_body_rejected_witness :
  IsIndex "text/plain" = false /\ IsImage "text/plain" = false /\ Json.parse "{" = None /\
  exists err, handlePut "acme/app" "v1" "text/plain" "{" "/v2/acme/app/manifests/v1" w_empty
                = (inl err, w_empty) /\
              Code err = "MANIFEST_INVALID" /\ Status err = 400.
Proof.
  assert (H1 : IsIndex "text/plain" = false) by reflexivity.
  assert (H2 : IsImage "text/plain" = false) by reflexivity.
  assert (H3 : Json.parse "{" = None) by (vm_compute; reflexivity).
  exact (conj H1 (conj H2 (conj H3
           (put_unparsable_body_rejected "acme/app" "v1" "text/plain" "{"
              "/v2/acme/app/manifests/v1" w_empty H1 H2 H3)))).
Defined.

Lemma head_stat_errors_witness :
  WManifests w_head !! ("acme/app"%string, "v1"%string)
    = Some (put_record OCIManifestSchema1 image_body, []) /\
  WCanStat w_head = true /\
  fst (blob_stat "acme/app" (sha256_digest image_body) w_head) = inl ErrBlobUnknown /\
  exists err, fst (handleHead "acme/app" "v1" w_head) = inl err /\
              Code err = "MANIFEST_UNKNOWN" /\ Status err = 404.
Proof.
  assert (H1 : WManifests w_head !! ("acme/app"%string, "v1"%string)
                 = Some (put_record OCIManifestSchema1 image_body, []))
    by (vm_compute; reflexivity).
  assert (H2 : WCanStat w_head = true) by reflexivity.
  assert (H3 : fst (blob_stat "acme/app" (BDigest (MBlob (put_record OCIManifestSchema1 image_body)))
                              w_head) = inl ErrBlobUnknown)
    by (vm_compute; reflexivity).
  exact (conj H1 (conj H2 (conj H3 (proj2 (head_stat_errors _ _ _ _ _ H1) _ H2 H3)))).
Defined.

Lemma tags_list_cases_witness :
  WAuthz w_empty "acme/app" None ActionRead = None /\
  snd (handleTags "GET" "acme/app" [] w_empty)
    = log_ext w_empty [CAuthorize "acme/app" ActionRead; CListTags "acme/app" 10000 ""].
Proof.
  assert (H : WAuthz w_empty "acme/app" None ActionRead = None) by reflexivity.
  split; [exact H |].
  pose proof (tags_list_cases "acme/app" [] w_empty H) as T.
  cbv zeta in T.
  destruct T as [_ T].
  destruct (T (or_introl eq_refl)) as [A _].
  exact A.
Defined.

Lemma index_put_missing_submanifest_witness :
  IsIndex OCIImageIndex = true /\ ParseIndexManifest index_body = Some [child_desc] /\
  In child_desc [child_desc] /\ submanifest_missing "acme/app" w_empty child_desc /\
  exists l, snd (handlePut "acme/app" "i1" OCIImageIndex index_body
                           "/v2/acme/app/manifests/i1" w_empty) = log_ext w_empty l /\
            Forall (fun c => is_store_write c = false) l.
Proof.
  assert (H1 : IsIndex OCIImageIndex = true) by reflexivity.
  assert (H2 : ParseIndexManifest index_body = Some [child_desc]) by (vm_compute; reflexivity).
  assert (H3 : In child_desc [child_desc]) by (left; reflexivity).
  assert (H4 : submanifest_missing "acme/app" w_empty child_desc)
    by (split; [| split]; vm_compute; reflexivity).
  exact (conj H1 (conj H2 (conj H3 (conj H4
           (proj2 (index_put_missing_submanifest "acme/app" "i1" OCIImageIndex index_body
                     "/v2/acme/app/manifests/i1" w_empty _ _ H1 H2 H3 H4)))))).
Defined.


Lemma referrers_index_witness :
  WAuthz w_referrer "acme/app" (Some HX) ActionRead = None /\
  is_digest HX = true /\ repo_known "acme/app" w_referrer = true /\
  blobs_readable w_referrer "acme/app" = true /\
  NoDup (map RDigest (flat_map (referrer_of (WManifests w_referrer) (WBlobs w_referrer) "acme/app" HX)
                               (List.filter is_digest (repo_refs "acme/app" w_referrer)))).
Proof.
  assert (H1 : WAuthz w_referrer "acme/app" (Some HX) ActionRead = None) by (vm_compute; reflexivity).
  assert (H2 : is_digest HX = true) by (vm_compute; reflexivity).
  assert (H3 : repo_known "acme/app" w_referrer = true) by (vm_compute; reflexivity).
  assert (H4 : blobs_readable w_referrer "acme/app" = true) by (vm_compute; reflexivity).
  exact (conj H1 (conj H2 (conj H3 (conj H4
           (proj2 (referrers_index "acme/app" HX w_referrer H1 H2 H3 H4)))))).
Defined.

(** ** Counterexamples to the claims as worded *)

(** C1: with a redirecting blob backend the PUT succeeds, but the GET by tag
    answers the redirect (307 with a short HTML link body), not the bytes of
    the body. *)
Lemma put_get_redirect_counterexample :
  fst (handlePut "acme/app" "v1" OCIManifestSchema1 image_body "/v2/acme/app/manifests/v1" w_redirect)
    = inr (put_response "/v2/acme/app/manifests/v1" (sha256_digest image_body)) /\
  match fst (handleGet "acme/app" "v1" "/v2/acme/app/manifests/v1"
               (snd (handlePut "acme/app" "v1" OCIManifestSchema1 image_body
                               "/v2/acme/app/manifests/v1" w_redirect))) with
  | inr g => RStatus g = 307 /\ RBody g <> image_body
  | inl _ => False
  end.
Proof.
  split.
  - vm_compute. reflexivity.
  - vm_compute. split; [reflexivity | intro H; discriminate H].
Qed.

(** C3: the manifest record exists, Stat is available and fails, and HEAD
    answers MANIFEST_UNKNOWN (404), not INTERNAL (500). *)
Lemma head_stat_failure_counterexample :
  WManifests w_head !! ("acme/app"%string, "v1"%string)
    = Some (put_record OCIManifestSchema1 image_body, []) /\
  WCanStat w_head = true /\
  fst (blob_stat "acme/app" (sha256_digest image_body) w_head) = inl ErrBlobUnknown /\
  match fst (handleHead "acme/app" "v1" w_head) with
  | inl e => Status e = 404 /\ Code e = "MANIFEST_UNKNOWN"
  | inr _ => False
  end.
Proof. vm_compute. split_and!; reflexivity. Qed.

(** C4: a manifest whose config has a duplicated [mediaType] (a string, then
    a number) fails to unmarshal, yet its referrer descriptor carries the
    artifact type read before the failure, not the empty string. *)
Lemma referrers_artifact_type_counterexample :
  snd (unmarshal image_as_artifact_ty referrer_body) = true /\
  match fst (handleReferrers "GET" "acme/app" HX w_referrer) with
  | inr r =>
      RStatus r = 200 /\
      RBody r = marshal_index 2 OCIImageIndex
                  [{| RMediaType := "application/vnd.example+json";
                      RSize := Z.of_nat (String.length referrer_body);
                      RDigest := sha256_digest referrer_body;
                      RArtifactType := "application/vnd.example.sbom" |}] /\
      RBody r <> marshal_index 2 OCIImageIndex
                  [{| RMediaType := "application/vnd.example+json";
                      RSize := Z.of_nat (String.length referrer_body);
                      RDigest := sha256_digest referrer_body;
                      RArtifactType := "" |}]
  | inl _ => False
  end.
Proof.
  split.
  - vm_compute. reflexivity.
  - vm_compute. split; [reflexivity | split; [reflexivity | intro H; discriminate H]].
Qed.


(** C7: an authorized tags list of an unknown repository, with [n] absent,
    answers NAME_UNKNOWN (404), not a JSON tags body. *)
Lemma tags_unknown_repo_counterexample :
  WAuthz w_empty "acme/app" None ActionRead = None /\
  match fst (handleTags "GET" "acme/app" [] w_empty) with
  | inl e => Code e = "NAME_UNKNOWN" /\ Status e = 404
  | inr _ => False
  end.
Proof. split; vm_compute; [reflexivity | split; reflexivity]. Qed.

(** C8: an [n] that fails to parse with a range error makes the catalog call
    List with [-2^63], not with 0. *)
Lemma catalog_range_counterexample :
  snd (atoi "-99999999999999999999") = Some ErrRange /\
  WLog (snd (handleCatalog "GET" [("n"%string, "-99999999999999999999"%string)] w_empty))
    = [CList (- 2 ^ 63)] /\
  - 2 ^ 63 <> 0.
Proof. split_and!; [vm_compute; reflexivity | vm_compute; reflexivity | lia]. Qed.

End Claims.

(* ------------------------------------------------------------------ *)
(** ** Further properties of the handlers *)

Module Extra.
Import Json GoJson GoLib Registry Store Handlers Routing Props Claims.

(** A computation that only appends calls to the log, none of them a
    store write. *)
Local Abbreviation read_only m :=
  (forall w, exists l, snd (m w) = log_ext w l /\ Forall (fun c => is_store_write c = false) l).


Lemma list_ascii_app (a b : string) :
  list_ascii_of_string (a ++ b) = list_ascii_of_string a ++ list_ascii_of_string b.
Proof. induction a; simpl; [reflexivity | now rewrite IHa]. Qed.

Lemma split_on_free (x cur : list ascii) :
  forallb (fun c => negb (Ascii.eqb c "/")) x = true ->
  split_on "/"%char x cur = [cur ++ x].
Proof.
  revert cur; induction x as [|c r IH]; intros cur H; simpl in *.
  - now rewrite app_nil_r.
  - apply andb_prop in H as [Hc Hr]. apply negb_true_iff in Hc. rewrite Hc.
    rewrite IH by exact Hr. now rewrite <- app_assoc.
Qed.

Lemma split_on_sep (x r cur : list ascii) :
  forallb (fun c => negb (Ascii.eqb c "/")) x = true ->
  split_on "/"%char (x ++ "/"%char :: r) cur = (cur ++ x) :: split_on "/"%char r [].
Proof.
  revert cur; induction x as [|c x IH]; intros cur H; simpl in *.
  - now rewrite app_nil_r.
  - apply andb_prop in H as [Hc Hr]. apply negb_true_iff in Hc. rewrite Hc.
    rewrite IH by exact Hr. now rewrite <- app_assoc.
Qed.

Lemma split_join_chars (l : list string) :
  l <> [] -> Forall (fun s => slash_free s = true) l ->
  split_on "/"%char (list_ascii_of_string (join_slash l)) [] = map list_ascii_of_string l.
Proof.
  induction l as [|a l IH]; intros Hne Hf; [congruence|].
  inversion Hf as [|? ? Ha Hl]; subst.
  destruct l as [|b l].
  - unfold join_slash; simpl. rewrite split_on_free by exact Ha. reflexivity.
  - change (join_slash (a :: b :: l)) with (a ++ "/" ++ join_slash (b :: l))%string.
    rewrite list_ascii_app.
    change (list_ascii_of_string ("/" ++ join_slash (b :: l))%string)
      with ("/"%char :: list_ascii_of_string (join_slash (b :: l))).
    rewrite split_on_sep by exact Ha.
    rewrite IH by (discriminate || exact Hl). reflexivity.
Qed.

(** [strings.Split] undoes [strings.Join] on slash-free segments. *)
Lemma split_join_roundtrip (l : list string) :
  l <> [] -> Forall (fun s => slash_free s = true) l ->
  split_slash (join_slash l) = l.
Proof.
  intros Hne Hf. unfold split_slash. rewrite split_join_chars by assumption.
  rewrite map_map. erewrite map_ext; [apply map_id|]. intros s. apply string_of_list_ascii_of_string.
Qed.

Lemma path_elems_req_path prefix segs kind target :
  Forall (fun s => slash_free s = true) (prefix :: segs ++ [kind; target]) ->
  path_elems (req_path prefix segs kind target) = prefix :: segs ++ [kind; target].
Proof.
  intros Hf. unfold path_elems, req_path.
  rewrite split_join_roundtrip; [reflexivity | discriminate | constructor; [reflexivity | exact Hf]].
Qed.

Lemma nth_tail2 {A} (xs : list A) (a b d : A) :
  nth (length (xs ++ [a; b]) - 2) (xs ++ [a; b]) d = a /\
  nth (length (xs ++ [a; b]) - 1) (xs ++ [a; b]) d = b.
Proof.
  rewrite length_app. simpl.
  replace (length xs + 2 - 2)%nat with (length xs + 0)%nat by lia.
  replace (length xs + 2 - 1)%nat with (length xs + 1)%nat by lia.
  rewrite !app_nth2_plus. split; reflexivity.
Qed.

Lemma firstn_app_len {A} (xs ys : list A) : firstn (length xs) (xs ++ ys) = xs.
Proof. induction xs; simpl; [reflexivity | now rewrite IHxs]. Qed.

(** The path parsing of [handle], [handleTags] and [handleReferrers] and
    the route predicates on a path [/<prefix>/<segs...>/<kind>/<target>]
    of slash-free segments: the target is the last segment, the repository
    is the middle segments joined by slashes, and [isManifest], [isTags] and
    [isReferrers] hold exactly when there is a middle segment and [kind] is
    [manifests], [tags] or [referrers]; [isCatalog] holds exactly when the
    last segment is [_catalog]. *)
Theorem route_parse prefix segs kind target :
  Forall (fun s => slash_free s = true) (prefix :: segs ++ [kind; target]) ->
  route_target (req_path prefix segs kind target) = Some target /\
  route_repo (req_path prefix segs kind target) = Some (join_slash segs) /\
  isManifest (req_path prefix segs kind target)
    = ((1 <=? length segs)%nat && String.eqb kind "manifests") /\
  isTags (req_path prefix segs kind target)
    = ((1 <=? length segs)%nat && String.eqb kind "tags") /\
  isReferrers (req_path prefix segs kind target)
    = ((1 <=? length segs)%nat && String.eqb kind "referrers") /\
  isCatalog (req_path prefix segs kind target) = String.eqb target "_catalog".
Proof.
  intros Hf.
  unfold route_target, route_repo, isManifest, isTags, isReferrers, isCatalog, second_last_is.
  rewrite path_elems_req_path by exact Hf.
  rewrite app_comm_cons.
  destruct (nth_tail2 (prefix :: segs) kind target "") as [H2 H1].
  rewrite H2, H1. rewrite length_app. simpl length.
  rewrite (Nat.add_comm _ 2). simpl. rewrite Nat.sub_0_r.
  rewrite drop_0, firstn_app_len.
  destruct segs as [|s segs]; simpl; split_and!; reflexivity.
Qed.

(** A path that [isManifest], [isTags] or [isReferrers] accepts never
    makes [handle], [handleTags] or [handleReferrers] panic on its path
    parsing, whatever the method. *)
Theorem routes_do_not_panic method path ct body query w :
  (isManifest path = true -> handle method path ct body w <> None) /\
  (isTags path = true -> handleTagsReq method path query w <> None) /\
  (isReferrers path = true -> handleReferrersReq method path w <> None).
Proof.
  unfold isManifest, isTags, isReferrers, handle, handleTagsReq, handleReferrersReq,
         route_target, route_repo.
  destruct (path_elems path) as [|e0 elems] eqn:E; simpl.
  { split_and!; intros H; discriminate H. }
  destruct (length elems <? 3)%nat eqn:L.
  - apply Nat.ltb_lt in L.
    assert (L4 : (S (length elems) <? 4)%nat = true) by (apply Nat.ltb_lt; lia).
    rewrite L4. split_and!; intros H; discriminate H.
  - apply Nat.ltb_ge in L.
    assert (L3 : (S (length elems) <? 3)%nat = false) by (apply Nat.ltb_ge; lia).
    rewrite L3. split_and!; intros _; try discriminate.
    destruct (negb (String.eqb method "GET")); discriminate.
Qed.

(** [handle] authorizes the reference with the action of the method (read
    for GET, stat for HEAD, write for PUT) before anything else; a refusal
    is returned as its registry error with no other effect, an
    authorization hands the request to [handleGet], [handleHead] or
    [handlePut]; any other method is METHOD_UNKNOWN with no effect at all. *)
Theorem handle_dispatch method path ct body w target repo :
  route_target path = Some target -> route_repo path = Some repo ->
  (forall a e, method_action method = Some a -> WAuthz w repo (Some target) a = Some e ->
     handle method path ct body w
       = Some (inl (authz_error e), log_ext w [CAuthorizeReference repo target a])) /\
  (forall a, method_action method = Some a -> WAuthz w repo (Some target) a = None ->
     handle method path ct body w
       = Some (method_handler method repo target ct body path
                 (log_ext w [CAuthorizeReference repo target a]))) /\
  (method_action method = None -> handle method path ct body w = Some (inl regErrMethodUnknown, w)).
Proof.
  intros Ht Hr. unfold handle, method_action, method_handler. rewrite Ht, Hr.
  unfold authorized, hbind, lift, authorize_reference, hthrow.
  destruct (String.eqb method "GET"); [|destruct (String.eqb method "HEAD");
    [|destruct (String.eqb method "PUT")]];
  split_and!; intros; simplify_eq; try discriminate; try reflexivity;
  match goal with H : WAuthz _ _ _ _ = _ |- _ => rewrite H end;
  rewrite add_log_ext; reflexivity.
Qed.

(** A method other than GET on the referrers, catalog or tags endpoint is
    METHOD_UNKNOWN with no call made; only [handleTags] reads the
    repository off the path first, so a too-short tags path panics
    instead. *)
Theorem non_get_requests method path query w :
  method <> "GET"%string ->
  handleReferrersReq method path w = Some (inl regErrMethodUnknown, w) /\
  handleCatalog method query w = (inl regErrMethodUnknown, w) /\
  (route_repo path = None -> handleTagsReq method path query w = None) /\
  (forall repo, route_repo path = Some repo ->
     handleTagsReq method path query w = Some (inl regErrMethodUnknown, w)).
Proof.
  intros Hm. apply String.eqb_neq in Hm.
  unfold handleReferrersReq, handleCatalog, handleTagsReq, handleTags. rewrite Hm.
  split_and!; [reflexivity | reflexivity | intros H; rewrite H; reflexivity |].
  intros repo H. rewrite H. reflexivity.
Qed.


Lemma ro_ret {A} (x : A) : read_only (hret x).
Proof. intros w. exists []. split; [symmetry; apply log_ext_nil | constructor]. Qed.

Lemma ro_throw {A} e : read_only (@hthrow A e).
Proof. intros w. exists []. split; [symmetry; apply log_ext_nil | constructor]. Qed.

Lemma ro_bind {A B} (m : HM A) (k : A -> HM B) :
  read_only m -> (forall x, read_only (k x)) -> read_only (hbind m k).
Proof.
  intros Hm Hk w. unfold hbind. destruct (Hm w) as [l1 [E1 F1]].
  destruct (m w) as [[e|x] w1] eqn:M; simpl in E1; subst w1.
  - exists l1. split; [reflexivity | exact F1].
  - destruct (Hk x (log_ext w l1)) as [l2 [E2 F2]].
    exists (l1 ++ l2). split; [rewrite E2, log_ext_app; reflexivity | apply Forall_app; split; assumption].
Qed.

Lemma ro_lift {A} (m : St A) :
  (forall w, exists c, snd (m w) = add_log c w /\ is_store_write c = false) -> read_only (lift m).
Proof.
  intros H w. destruct (H w) as [c [E F]]. unfold lift. destruct (m w) as [x w'] eqn:M.
  simpl in *. subst w'. exists [c]. split; [apply add_log_ext | constructor; [exact F | constructor]].
Qed.

(** Steps of a read-only computation. *)
Ltac ro_step :=
  match goal with
  | |- read_only (hbind _ _) => refine (ro_bind _ _ _ _); [|intros ?]
  | |- read_only (hret _) => refine (ro_ret _)
  | |- read_only (hthrow _) => refine (ro_throw _)
  | |- read_only (lift _) => refine (ro_lift _ _); intros ?; eexists; split; [reflexivity | reflexivity]
  | |- read_only (match ?x with _ => _ end) => destruct x
  | |- read_only (if ?x then _ else _) => destruct x
  end.

Lemma ro_referrers_loop repo target ds acc : read_only (referrers_loop repo target ds acc).
Proof.
  revert acc; induction ds as [|d ds IH]; intros acc; cbn [referrers_loop].
  - exact (ro_ret acc).
  - repeat (ro_step || refine (IH _)).
Qed.

Lemma ro_handleGet repo target path : read_only (handleGet repo target path).
Proof. unfold handleGet. repeat ro_step. Qed.

Lemma ro_handleHead repo target : read_only (handleHead repo target).
Proof.
  unfold handleHead. refine (ro_bind _ _ _ _); [repeat ro_step|]. intros r.
  destruct r as [e|m]; [destruct e; refine (ro_throw _)|].
  intros w. cbv beta. destruct (WCanStat w); [|exact (ro_throw _ w)].
  match goal with |- exists l, snd (?m w) = _ /\ _ => cut (read_only m); [intros P; apply P|] end.
  repeat ro_step.
Qed.

Lemma ro_handleTags method repo q : read_only (handleTags method repo q).
Proof. unfold handleTags. repeat ro_step. Qed.

Lemma ro_handleCatalog method q : read_only (handleCatalog method q).
Proof. unfold handleCatalog. repeat ro_step. Qed.

Lemma ro_handleReferrers method repo target : read_only (handleReferrers method repo target).
Proof. unfold handleReferrers. repeat (ro_step || refine (ro_referrers_loop _ _ _ _)). Qed.

(** [handleGet], [handleHead], [handleTags], [handleCatalog] and
    [handleReferrers] change nothing but the call log, and none of the
    calls they make is a store write. *)
Theorem read_handlers_never_write method repo target path q w :
  (exists l, snd (handleGet repo target path w) = log_ext w l /\
             Forall (fun c => is_store_write c = false) l) /\
  (exists l, snd (handleHead repo target w) = log_ext w l /\
             Forall (fun c => is_store_write c = false) l) /\
  (exists l, snd (handleTags method repo q w) = log_ext w l /\
             Forall (fun c => is_store_write c = false) l) /\
  (exists l, snd (handleCatalog method q w) = log_ext w l /\
             Forall (fun c => is_store_write c = false) l) /\
  (exists l, snd (handleReferrers method repo target w) = log_ext w l /\
             Forall (fun c => is_store_write c = false) l).
Proof.
  split_and!; [exact (ro_handleGet _ _ _ w) | exact (ro_handleHead _ _ w) | exact (ro_handleTags _ _ _ w)
              | exact (ro_handleCatalog _ _ w) | exact (ro_handleReferrers _ _ _ w)].
Qed.


(** [handleGet] records a pull audit for the reference exactly when it
    succeeds, with the content or with a redirect. *)
Theorem get_audits_iff_success repo target path w :
  exists l, snd (handleGet repo target path w) = log_ext w l /\
    (In (CAuditPull repo target) l <-> exists r, fst (handleGet repo target path w) = inr r).
Proof.
  unfold handleGet, hbind, lift, manifest_get, blob_get, audit_pull, hret, hthrow.
  repeat (case_match; simplify_eq/=);
  eexists; (split; [rewrite ?add_log_ext, ?log_ext_app; reflexivity|]);
  simpl; split; intros H;
  repeat match goal with
         | H : _ \/ _ |- _ => destruct H as [H|H]
         | H : exists _, _ |- _ => destruct H as [? H]
         end; try discriminate; try contradiction; eauto.
Qed.

(** When the blob store gives no redirect and can stat, HEAD of a manifest
    fails with the same error as GET, or answers with the status and the
    headers of GET and an empty body. *)
Theorem head_matches_get repo target path w :
  (forall d, WRedirect w repo d = None) -> WCanStat w = true ->
  fst (handleHead repo target w)
    = match fst (handleGet repo target path w) with
      | inl e => inl e
      | inr r => inr {| RStatus := RStatus r; RHeader := RHeader r; RBody := "" |}
      end.
Proof.
  intros Hr Hs.
  unfold handleHead, handleGet, hbind, lift, manifest_get, blob_get, blob_stat, audit_pull,
         hret, hthrow.
  destruct (repo_known repo w); simpl; [|reflexivity].
  destruct (WManifests w !! (repo, target)) as [[m d]|]; simpl; [|reflexivity].
  rewrite Hs, Hr. simpl.
  destruct (WBlobs w !! (repo, BDigest (MBlob m))); reflexivity.
Qed.

(** A failed [handlePut] leaves the manifest records as they were; when
    it fails on the quota, the body has already been written to the blob
    store under its digest. *)
Theorem put_failure_keeps_records repo target ct body path w e :
  fst (handlePut repo target ct body path w) = inl e ->
  WManifests (snd (handlePut repo target ct body path w)) = WManifests w /\
  (e = regErrDeniedQuotaExceeded ->
     WBlobs (snd (handlePut repo target ct body path w)) !! (repo, sha256_digest body) = Some body).
Proof.
  intros H. unfold handlePut, hbind in *.
  destruct (put_deps_log repo ct body w) as [l [El _]].
  destruct (put_deps repo ct body w) as [[e0|blobs] w1] eqn:D; simpl in El; subst w1.
  - simpl in *. injection H as <-. split; [reflexivity|].
    intros ->. pose proof (put_deps_error repo ct body w regErrDeniedQuotaExceeded) as P.
    rewrite D in P. destruct (P eq_refl) as [[_ S]|[_ [_ S]]]; discriminate S.
  - unfold put_store in *.
    destruct (checkIncompatibleManifest body) as [e1|] eqn:C.
    { simpl in *. injection H as <-. split; [reflexivity|]. intros E.
      unfold checkIncompatibleManifest in C.
      destruct (unmarshal blobs_check_ty body) as [mf err].
      destruct err; [|destruct (0 <? length _)%nat]; try discriminate C;
        injection C as <-; discriminate E. }
    simpl in *. destruct (WCanPut w) eqn:P.
    2:{ simpl in *. injection H as <-. split; [reflexivity | intros E; discriminate E]. }
    unfold hbind, lift, blob_put, run_tx, manifest_put in *. simpl in *.
    repeat (case_match; simplify_eq/=); split; try reflexivity; try discriminate;
      intros E; try discriminate E; rewrite ?lookup_insert_eq; reflexivity.
Qed.


Lemma index_deps_ok repo ds acc w bs :
  fst (index_deps repo ds acc w) = inr bs -> bs = acc ++ map blob_of (List.filter needed_dep ds).
Proof.
  revert acc w; induction ds as [|d ds IH]; intros acc w H; simpl in *.
  - injection H as <-. now rewrite app_nil_r.
  - unfold needed_dep at 1.
    destruct (IsDistributable (DMediaType d)) eqn:Dd; simpl in *.
    + destruct (IsIndex (DMediaType d) || IsImage (DMediaType d)) eqn:Ii; simpl in *.
      * unfold hbind, lift in H. destruct (manifest_get repo (DDigest d) w) as [[e|m] w'] eqn:G;
          [discriminate H|].
        rewrite (IH _ _ H). rewrite <- app_assoc. reflexivity.
      * exact (IH _ _ H).
    + exact (IH _ _ H).
Qed.

(** A successful PUT of an index records, under both the target and the
    body's digest, the distributable image and index descriptors of the
    index as the blobs of the manifest, in their order. *)
Theorem index_put_records_deps repo target ct body path w ds r :
  IsIndex ct = true -> ParseIndexManifest body = Some ds ->
  fst (handlePut repo target ct body path w) = inr r ->
  WManifests (snd (handlePut repo target ct body path w)) !! (repo, target)
    = Some (put_record ct body, map blob_of (List.filter needed_dep ds)) /\
  WManifests (snd (handlePut repo target ct body path w)) !! (repo, sha256_digest body)
    = Some (put_record ct body, map blob_of (List.filter needed_dep ds)).
Proof.
  intros Hi Hp H. unfold handlePut, hbind in *.
  destruct (put_deps repo ct body w) as [[e|blobs] w1] eqn:D; [discriminate H|].
  unfold put_deps in D. rewrite Hi, Hp in D.
  assert (Hb : blobs = map blob_of (List.filter needed_dep ds)).
  { pose proof (index_deps_ok repo ds [] w blobs) as P. rewrite D in P. exact (P eq_refl). }
  subst blobs.
  destruct (put_store_success repo target ct body path _ w1 r H) as [_ [Hm _]].
  rewrite Hm. split; [apply lookup_insert_eq|].
  destruct (decide (target = sha256_digest body)) as [<-|Hne].
  - apply lookup_insert_eq.
  - rewrite lookup_insert_ne by congruence. apply lookup_insert_eq.
Qed.



Lemma digits_value_app acc l1 l2 :
  digits_value acc (l1 ++ l2)
    = match digits_value acc l1 with Some v => digits_value v l2 | None => None end.
Proof.
  revert acc; induction l1 as [|c l1 IH]; intros acc; simpl; [reflexivity|].
  destruct (Json.is_digit c); [apply IH | reflexivity].
Qed.

Lemma digit_char (k : nat) :
  (k < 10)%nat ->
  Json.is_digit (ascii_of_nat (48 + k)) = true /\
  Z.of_nat (nat_of_ascii (ascii_of_nat (48 + k))) - 48 = Z.of_nat k.
Proof.
  intros Hk. rewrite nat_ascii_embedding by lia. unfold Json.is_digit.
  rewrite nat_ascii_embedding by lia. split; [|lia].
  apply andb_true_intro; split; apply Nat.leb_le; lia.
Qed.

Lemma digits_rev_S (f : nat) (n : Z) :
  0 <= n ->
  exists c, digits_rev (S f) n = c :: (if n <? 10 then [] else digits_rev f (n / 10)) /\
            Json.is_digit c = true /\ Z.of_nat (nat_of_ascii c) - 48 = n mod 10.
Proof.
  intros Hn.
  assert (Hm : (Z.to_nat (n mod 10) < 10)%nat) by (pose proof (Z.mod_pos_bound n 10); lia).
  destruct (digit_char _ Hm) as [Dc Dv].
  exists (ascii_of_nat (48 + Z.to_nat (n mod 10))). split_and!; [reflexivity | exact Dc |].
  rewrite Dv. apply Z2Nat.id. apply Z.mod_pos_bound. lia.
Qed.

Lemma digits_value_single acc c :
  Json.is_digit c = true -> digits_value acc [c] = Some (10 * acc + (Z.of_nat (nat_of_ascii c) - 48)).
Proof. intros H. unfold digits_value. rewrite H. reflexivity. Qed.

Lemma digits_rev_ok (f : nat) (n : Z) :
  (1 <= f)%nat -> 0 <= n < 10 ^ Z.of_nat f ->
  digits_value 0 (rev (digits_rev f n)) = Some n /\
  Forall (fun c => Json.is_digit c = true) (digits_rev f n) /\ digits_rev f n <> [].
Proof.
  revert n; induction f as [|f IH]; intros n Hf Hn; [lia|].
  destruct (digits_rev_S f n ltac:(lia)) as [c [E [Dc Dv]]]. rewrite E.
  destruct (n <? 10) eqn:L.
  - apply Z.ltb_lt in L. change (rev [c]) with [c].
    rewrite digits_value_single by exact Dc.
    rewrite Dv, Z.mod_small by lia.
    split_and!; [f_equal; lia | constructor; [exact Dc | constructor] | discriminate].
  - apply Z.ltb_ge in L.
    destruct f as [|f']; [simpl in Hn; lia|].
    assert (Hq : 0 <= n / 10 < 10 ^ Z.of_nat (S f')).
    { split; [apply Z.div_pos; lia|]. apply Z.div_lt_upper_bound; [lia|].
      rewrite (Nat2Z.inj_succ (S f')), Z.pow_succ_r in Hn by lia. lia. }
    destruct (IH (n / 10) ltac:(lia) Hq) as [V [F _]].
    change (rev (c :: digits_rev (S f') (n / 10))) with (rev (digits_rev (S f') (n / 10)) ++ [c]).
    rewrite digits_value_app, V, digits_value_single by exact Dc. rewrite Dv.
    split_and!; [f_equal; pose proof (Z.div_mod n 10); lia | constructor; [exact Dc | exact F] | discriminate].
Qed.

Lemma itoa_nonneg (n : Z) :
  0 <= n ->
  exists ds, itoa n = string_of_list_ascii ds /\ ds <> [] /\
             Forall (fun c => Json.is_digit c = true) ds /\ digits_value 0 ds = Some n.
Proof.
  intros Hn. unfold itoa.
  assert (Hb : 0 <= n < 10 ^ Z.of_nat (S (Z.to_nat (Z.log2 (Z.abs n + 1))))).
  { rewrite Z.abs_eq by lia. split; [lia|].
    pose proof (Z.log2_spec (n + 1) ltac:(lia)) as [_ U].
    rewrite Nat2Z.inj_succ, Z2Nat.id by (apply Z.log2_nonneg).
    assert (2 ^ Z.succ (Z.log2 (n + 1)) <= 10 ^ Z.succ (Z.log2 (n + 1))).
    { apply Z.pow_le_mono_l. lia. }
    lia. }
  destruct (digits_rev_ok (S (Z.to_nat (Z.log2 (Z.abs n + 1)))) n ltac:(lia) Hb) as [V [F Ne]].
  rewrite Z.abs_eq in V, F, Ne |- * by lia. destruct (n <? 0) eqn:L; [apply Z.ltb_lt in L; lia|].
  exists (rev (digits_rev (S (Z.to_nat (Z.log2 (n + 1)))) n)).
  split_and!; [reflexivity | |apply Forall_rev; exact F | exact V].
  intros E. apply Ne. apply (f_equal (@rev ascii)) in E. rewrite rev_involutive in E. exact E.
Qed.


Lemma digits_value_ge acc ds v :
  0 <= acc -> Forall (fun c => Json.is_digit c = true) ds -> digits_value acc ds = Some v ->
  acc <= v.
Proof.
  revert acc; induction ds as [|c r IH]; intros acc Ha F D; simpl in D.
  - injection D as <-. lia.
  - inversion F as [|? ? Dc Fr]; subst. rewrite Dc in D.
    assert (0 <= Z.of_nat (nat_of_ascii c) - 48).
    { unfold Json.is_digit in Dc. apply andb_prop in Dc as [D1 _]. apply Nat.leb_le in D1. lia. }
    apply IH in D; [lia | lia | exact Fr].
Qed.

Lemma parse_uint10_digits acc ds v :
  0 <= acc -> Forall (fun c => Json.is_digit c = true) ds -> digits_value acc ds = Some v ->
  v <= MaxUint64 -> parse_uint10 acc ds = (v, None).
Proof.
  revert acc; induction ds as [|c r IH]; intros acc Ha F D Hv; simpl in D |- *.
  - injection D as <-. reflexivity.
  - inversion F as [|? ? Dc Fr]; subst. rewrite Dc in D |- *.
    assert (Hd : 0 <= Z.of_nat (nat_of_ascii c) - 48).
    { unfold Json.is_digit in Dc. apply andb_prop in Dc as [D1 _]. apply Nat.leb_le in D1. lia. }
    pose proof D as G. apply digits_value_ge in G; [|lia|exact Fr].
    destruct (MaxUint64 / 10 + 1 <=? acc) eqn:L1.
    { apply Z.leb_le in L1. exfalso. unfold MaxUint64 in *.
      pose proof (Z.mul_div_le (2 ^ 64 - 1) 10 ltac:(lia)).
      pose proof (Z.mod_pos_bound (2 ^ 64 - 1) 10 ltac:(lia)).
      pose proof (Z.div_mod (2 ^ 64 - 1) 10 ltac:(lia)). lia. }
    destruct (MaxUint64 <? acc * 10 + (Z.of_nat (nat_of_ascii c) - 48)) eqn:L2.
    { apply Z.ltb_lt in L2. lia. }
    apply IH; [lia | exact Fr | | exact Hv].
    rewrite <- D. f_equal. lia.
Qed.

Lemma sign_digit c r :
  Json.is_digit c = true ->
  match c :: r with
  | "-"%char :: r => (true, r) | "+"%char :: r => (false, r) | _ => (false, c :: r)
  end = (false, c :: r).
Proof.
  intros H. destruct c as [[] [] [] [] [] [] [] []]; try discriminate H; reflexivity.
Qed.

(** [atoi] inverts [itoa] on the non-negative 64-bit integers. *)
Lemma atoi_itoa (n : Z) : 0 <= n < 2 ^ 63 -> atoi (itoa n) = (n, None).
Proof.
  intros Hn. destruct (itoa_nonneg n ltac:(lia)) as [ds [E [Ne [F V]]]]. rewrite E.
  unfold atoi. rewrite list_ascii_of_string_of_list_ascii.
  destruct ds as [|c r]; [contradiction|].
  inversion F as [|? ? Dc _]; subst.
  rewrite (sign_digit c r Dc).
  destruct ((0 <? length (c :: r))%nat && (length (c :: r) <? 19)%nat).
  - rewrite V. reflexivity.
  - rewrite (parse_uint10_digits 0 (c :: r) n ltac:(lia) F V) by (unfold MaxUint64; lia).
    destruct (2 ^ 63 <=? n) eqn:L; [apply Z.leb_le in L; lia|]. reflexivity.
Qed.

Lemma assoc_set_assoc_eq {A} k (v : A) h : assoc k (set_assoc k v h) = Some v.
Proof.
  induction h as [|[n y] r IH]; simpl.
  - rewrite String.eqb_refl. reflexivity.
  - destruct (String.eqb n k) eqn:E; simpl; rewrite E; [reflexivity | exact IH].
Qed.

Lemma assoc_set_assoc_ne {A} k k' (v : A) h : k' <> k -> assoc k (set_assoc k' v h) = assoc k h.
Proof.
  intros Hne. induction h as [|[n y] r IH]; simpl.
  - destruct (String.eqb k' k) eqn:E; [apply String.eqb_eq in E; congruence | reflexivity].
  - destruct (String.eqb n k') eqn:E; simpl.
    + apply String.eqb_eq in E. subst n.
      destruct (String.eqb k' k) eqn:E2; [apply String.eqb_eq in E2; congruence | reflexivity].
    + destruct (String.eqb n k); [reflexivity | exact IH].
Qed.

Lemma header_get_set k v h : header_get (header_set k v h) k = v.
Proof. unfold header_get, header_set. rewrite assoc_set_assoc_eq. reflexivity. Qed.

Lemma tags_success_shape method repo q w r :
  fst (handleTags method repo q w) = inr r -> r = length_response (RBody r) [].
Proof.
  unfold handleTags, hbind, lift, hret, hthrow.
  repeat (case_match; simplify_eq/=); intros; simplify_eq; reflexivity.
Qed.

Lemma catalog_success_shape method q w r :
  fst (handleCatalog method q w) = inr r -> r = length_response (RBody r) [].
Proof.
  unfold handleCatalog, hbind, lift, hret, hthrow.
  repeat (case_match; simplify_eq/=); intros; simplify_eq; reflexivity.
Qed.

Lemma referrers_success_shape method repo target w r :
  fst (handleReferrers method repo target w) = inr r ->
  RHeader r = header_set "Content-Type" OCIImageIndex (RHeader (length_response (RBody r) [])).
Proof.
  unfold handleReferrers, hbind, lift, hret, hthrow.
  repeat (case_match; simplify_eq/=); intros; simplify_eq; reflexivity.
Qed.

Lemma get_success_shape repo target path w r :
  fst (handleGet repo target path w) = inr r ->
  (exists loc code, r = redirect_response "GET" path loc code) \/
  exists h, r = length_response (RBody r) h.
Proof.
  unfold handleGet, hbind, lift, hret, hthrow.
  repeat (case_match; simplify_eq/=); intros; simplify_eq; eauto.
Qed.

Lemma length_response_header msg h :
  Z.of_nat (String.length msg) < 2 ^ 63 ->
  atoi (header_get (RHeader (length_response msg h)) "Content-Length") = (Z.of_nat (String.length msg), None).
Proof. intros Hl. simpl. rewrite header_get_set. apply atoi_itoa. lia. Qed.

(** The [Content-Length] header of a successful [handleTags],
    [handleCatalog] or [handleReferrers] response parses back, with
    [strconv.Atoi], to the length of its body. *)
Theorem list_content_length method repo target q w r :
  Z.of_nat (String.length (RBody r)) < 2 ^ 63 ->
  fst (handleTags method repo q w) = inr r \/ fst (handleCatalog method q w) = inr r \/
  fst (handleReferrers method repo target w) = inr r ->
  atoi (header_get (RHeader r) "Content-Length") = (Z.of_nat (String.length (RBody r)), None).
Proof.
  intros Hl [H|[H|H]].
  - apply tags_success_shape in H. rewrite H. apply length_response_header. exact Hl.
  - apply catalog_success_shape in H. rewrite H. apply length_response_header. exact Hl.
  - apply referrers_success_shape in H. rewrite H.
    unfold header_get at 1, header_set at 1.
    rewrite assoc_set_assoc_ne by (vm_compute; discriminate).
    apply (length_response_header (RBody r) []). exact Hl.
Qed.

(** A successful [handleGet] response is a redirect or its
    [Content-Length] header parses back to the length of its body. *)
Theorem get_content_length repo target path w r :
  fst (handleGet repo target path w) = inr r ->
  Z.of_nat (String.length (RBody r)) < 2 ^ 63 ->
  (exists loc code, r = redirect_response "GET" path loc code) \/
  atoi (header_get (RHeader r) "Content-Length") = (Z.of_nat (String.length (RBody r)), None).
Proof.
  intros H Hl. destruct (get_success_shape _ _ _ _ _ H) as [R|[h E]]; [left; exact R|right].
  rewrite E. apply length_response_header. exact Hl.
Qed.


(** Witnesses: each theorem with a hypothesis, applied where its
    hypotheses hold. *)

Lemma route_parse_witness :
  Forall (fun s => slash_free s = true) ("v2" :: ["acme"; "app"] ++ ["manifests"; "v1"])%string /\
  route_repo (req_path "v2" ["acme"; "app"] "manifests" "v1") = Some "acme/app"%string /\
  isManifest (req_path "v2" ["acme"; "app"] "manifests" "v1") = true.
Proof.
  assert (H : Forall (fun s => slash_free s = true)
                ("v2" :: ["acme"; "app"] ++ ["manifests"; "v1"])%string) by (repeat constructor).
  destruct (route_parse "v2" ["acme"; "app"] "manifests" "v1" H) as [_ [R [M _]]].
  split; [exact H|]. rewrite R, M. split; reflexivity.
Defined.

Lemma handle_dispatch_witness :
  route_target (req_path "v2" ["acme"; "app"] "manifests" "v1") = Some "v1"%string /\
  route_repo (req_path "v2" ["acme"; "app"] "manifests" "v1") = Some "acme/app"%string /\
  handle "DELETE" (req_path "v2" ["acme"; "app"] "manifests" "v1") "" "" w_empty
    = Some (inl regErrMethodUnknown, w_empty).
Proof.
  assert (Ht : route_target (req_path "v2" ["acme"; "app"] "manifests" "v1") = Some "v1"%string)
    by (vm_compute; reflexivity).
  assert (Hr : route_repo (req_path "v2" ["acme"; "app"] "manifests" "v1") = Some "acme/app"%string)
    by (vm_compute; reflexivity).
  destruct (handle_dispatch "DELETE" _ "" "" w_empty _ _ Ht Hr) as [_ [_ D]].
  split_and!; [exact Ht | exact Hr | apply D; reflexivity].
Defined.

Lemma non_get_requests_witness :
  "POST"%string <> "GET"%string /\
  handleCatalog "POST" [] w_empty = (inl regErrMethodUnknown, w_empty).
Proof.
  assert (Hm : "POST"%string <> "GET"%string) by discriminate.
  destruct (non_get_requests "POST" "/v2/_catalog" [] w_empty Hm) as [_ [C _]].
  split; [exact Hm | exact C].
Defined.

Lemma head_matches_get_witness :
  (forall d, WRedirect w_referrer "acme/app" d = None) /\ WCanStat w_referrer = true /\
  fst (handleHead "acme/app" "v1" w_referrer)
    = match fst (handleGet "acme/app" "v1" "/v2/acme/app/manifests/v1" w_referrer) with
      | inl e => inl e
      | inr r => inr {| RStatus := RStatus r; RHeader := RHeader r; RBody := "" |}
      end.
Proof.
  assert (Hr : forall d, WRedirect w_referrer "acme/app" d = None) by (intros d; vm_compute; reflexivity).
  assert (Hs : WCanStat w_referrer = true) by (vm_compute; reflexivity).
  split_and!; [exact Hr | exact Hs | apply (head_matches_get "acme/app" "v1" "/v2/acme/app/manifests/v1" w_referrer Hr Hs)].
Defined.

Lemma put_failure_keeps_records_witness :
  let w_quota0 := mkWorld ∅ ∅ (fun _ _ => None) true true 0 (fun _ _ _ => None) [] in
  fst (handlePut "acme/app" "v1" OCIManifestSchema1 image_body "/v2/acme/app/manifests/v1" w_quota0)
    = inl regErrDeniedQuotaExceeded /\
  WBlobs (snd (handlePut "acme/app" "v1" OCIManifestSchema1 image_body "/v2/acme/app/manifests/v1"
                 w_quota0)) !! ("acme/app"%string, sha256_digest image_body) = Some image_body.
Proof.
  intros w_quota0.
  assert (H : fst (handlePut "acme/app" "v1" OCIManifestSchema1 image_body
                     "/v2/acme/app/manifests/v1" w_quota0) = inl regErrDeniedQuotaExceeded)
    by (vm_compute; reflexivity).
  destruct (put_failure_keeps_records _ _ _ _ _ _ _ H) as [_ B].
  split; [exact H | exact (B eq_refl)].
Defined.

Lemma index_put_records_deps_witness :
  let w_child := mkWorld {[("acme/app"%string, HX) := (put_record OCIManifestSchema1 image_body, [])]}
             ∅ (fun _ _ => None) true true 100 (fun _ _ _ => None) [] in
  IsIndex OCIImageIndex = true /\ ParseIndexManifest index_body = Some [child_desc] /\
  fst (handlePut "acme/app" "latest" OCIImageIndex index_body "/v2/acme/app/manifests/latest" w_child)
    = inr (put_response "/v2/acme/app/manifests/latest" (sha256_digest index_body)) /\
  WManifests (snd (handlePut "acme/app" "latest" OCIImageIndex index_body
                     "/v2/acme/app/manifests/latest" w_child)) !! ("acme/app"%string, "latest"%string)
    = Some (put_record OCIImageIndex index_body, [{| BDigest := HX; BSize := 3 |}]).
Proof.
  intros w_child.
  assert (Hi : IsIndex OCIImageIndex = true) by (vm_compute; reflexivity).
  assert (Hp : ParseIndexManifest index_body = Some [child_desc]) by (vm_compute; reflexivity).
  assert (Hs : fst (handlePut "acme/app" "latest" OCIImageIndex index_body
                      "/v2/acme/app/manifests/latest" w_child)
               = inr (put_response "/v2/acme/app/manifests/latest" (sha256_digest index_body)))
    by (vm_compute; reflexivity).
  destruct (index_put_records_deps _ _ _ _ _ _ _ _ Hi Hp Hs) as [T _].
  split_and!; [exact Hi | exact Hp | exact Hs | exact T].
Defined.

Lemma list_content_length_witness :
  fst (handleCatalog "GET" [] w_head)
    = inr (length_response (jq "{'repositories':['acme/app']}") []) /\
  atoi (header_get (RHeader (length_response (jq "{'repositories':['acme/app']}") []))
          "Content-Length") = (29, None).
Proof.
  assert (H : fst (handleCatalog "GET" [] w_head)
              = inr (length_response (jq "{'repositories':['acme/app']}") [])) by (vm_compute; reflexivity).
  assert (Hl : Z.of_nat (String.length (RBody (length_response (jq "{'repositories':['acme/app']}") [])))
               < 2 ^ 63) by (vm_compute; reflexivity).
  split; [exact H|].
  rewrite (list_content_length "GET" "acme/app" "" [] w_head _ Hl (or_intror (or_introl H))).
  reflexivity.
Defined.

Lemma get_content_length_witness :
  exists r, fst (handleGet "acme/app" "v1" "/v2/acme/app/manifests/v1" w_referrer) = inr r /\ RBody r = referrer_body /\
    atoi (header_get (RHeader r) "Content-Length") = (Z.of_nat (String.length referrer_body), None).
Proof.
  destruct (fst (handleGet "acme/app" "v1" "/v2/acme/app/manifests/v1" w_referrer)) as [e|r] eqn:H;
    [vm_compute in H; discriminate H|].
  assert (B : RBody r = referrer_body).
  { vm_compute in H. injection H as <-. reflexivity. }
  assert (Hl : Z.of_nat (String.length (RBody r)) < 2 ^ 63) by (rewrite B; vm_compute; reflexivity).
  exists r. split_and!; [reflexivity | exact B |].
  destruct (get_content_length _ _ _ _ r H Hl) as [[loc [code R]]|A].
  - subst r. vm_compute in B. discriminate B.
  - rewrite <- B. exact A.
Defined.

End Extra.
